(** * create_golden_dataset.py: fetch, filter, publish

    A shallow embedding of [scripts/create_golden_dataset.py] and the
    properties of its three stages.

    Python objects live in a store: a [dict] built by the fetcher and a
    [list] are objects with an address, lists hold addresses, and
    [list.sort] and [list.append] update the list object in place.  Code
    that prints, raises or calls a service runs in a state-and-exception
    monad over that store, the console and the log of service requests.

    A [str] is a sequence of Unicode code points: [len] counts code
    points and a slice cuts between them.  The tables of the interpreter
    that say which code points are whitespace and what the lower-case
    form of a text is are no part of the script; they are parameters of
    the development and every property holds whatever they are.  The
    numeric [timestamp] is an integer. *)

From stdpp Require Import gmap strings list fin_maps sorting.
From Stdlib Require Import ZArith Ascii DecimalString.

(** ** Text *)

Definition code_point := N.

(** A Python [str]. *)
Definition text := list code_point.

(** The Unicode tables of the interpreter: [c.isspace()] for a code
    point, which decides what [str.strip] removes, and [s.lower()] for a
    whole text (lower-casing looks at the neighbours of a letter and can
    change the length). *)
Class Unicode := {
  str_isspace : code_point → bool;
  str_lower : text → text;
}.

(** A literal of the source, all in ASCII. *)
Definition lit (s : string) : text := N_of_ascii <$> String.list_ascii_of_string s.

Module Text.

Section Tables.
Context `{U : Unicode}.

(** [s.lower()] *)
Definition lower (s : text) : text := str_lower s.

Fixpoint lstrip (s : text) : text :=
  match s with
  | [] => []
  | c :: s' => if str_isspace c then lstrip s' else s
  end.

Fixpoint rstrip (s : text) : text :=
  match s with
  | [] => []
  | c :: s' =>
      match rstrip s' with
      | [] => if str_isspace c then [] else [c]
      | t => c :: t
      end
  end.

(** [s.strip()] *)
Definition strip (s : text) : text := rstrip (lstrip s).
End Tables.

(** [s.startswith(p)] *)
Fixpoint starts_with (p s : text) : bool :=
  match p, s with
  | [], _ => true
  | _ :: _, [] => false
  | a :: p', b :: s' => (a =? b)%N && starts_with p' s'
  end.

(** [needle in hay] *)
Fixpoint contains (needle hay : text) : bool :=
  starts_with needle hay ||
  match hay with
  | [] => false
  | _ :: hay' => contains needle hay'
  end.

(** [str(n)] of an integer *)
Definition str (n : Z) : text := lit (NilZero.string_of_int (Z.to_int n)).

(** [s[:n]] *)
Definition slice_to (n : nat) (s : text) : text := take n s.

(** The line feed of an f-string's [\n]. *)
Definition nl : text := [10%N].

End Text.

(** ** Data model *)

(** A record of the chat history as the fetcher builds it (lines 52-59):
    a dict with exactly these six keys. *)
Record ChatRecord := {
  question : text;
  sql : text;
  insights : text;
  timestamp : Z;
  user_email : text;
  session_id : text;
}.

(** An item of the store: a flat mapping in which every field is optional
    ([item.get(k)] is [None] when the key is absent). *)
Record Item := {
  item_sql : option text;
  item_question : option text;
  item_insights : option text;
  item_timestamp : option Z;
  item_user_email : option text;
  item_session_id : option text;
}.

(** The cursor of a scan: the key of the last item read, a mapping from
    attribute names to values; the empty mapping is falsy. *)
Definition Key := list (text * text).

(** The store's answer to one call of [table.scan]. *)
Record ScanResponse := {
  Items : option (list Item);
  LastEvaluatedKey : option Key;
}.

(** The arguments of [client.datasets.create_dataset]: the rows of
    [inputs], [outputs] and [metadata] are dicts from strings to strings. *)
Record CreateArgs := {
  arg_name : text;
  arg_dataset_description : text;
  arg_inputs : list (gmap string text);
  arg_outputs : list (gmap string text);
  arg_metadata : list (gmap string text);
}.

(** A key of a JSON object: absent, present with [null], or present with
    a value. *)
Inductive Field (A : Type) :=
  | Absent
  | Null
  | Value (a : A).
Arguments Absent {A}.
Arguments Null {A}.
Arguments Value {A} a.

(** The body of the verification answer: data, datasets, edges, and in
    each edge a node with a name and an exampleCount; the three levels
    read with [.get(k, default)] may be absent or [null]. *)
Record Node := { name : text; exampleCount : Z }.
Record Edge := { node : Node }.
Record Datasets := { edges : Field (list Edge) }.
Record Data := { datasets : Field Datasets }.
Record Body := { data : Field Data }.

(** A call of a service either returns or raises an [Exception]. *)
Inductive Outcome (A : Type) :=
  | Returns (a : A)
  | Raises (what : text).
Arguments Returns {A} a.
Arguments Raises {A} what.

(** What the run meets outside the process. *)
Record World := {
  (** the message of the [ImportError] of lines 17-19, if an import fails *)
  import_error : option text;
  (** [os.environ] *)
  environ : gmap string text;
  (** [table.scan] of the table of that name, from a cursor *)
  table_scan : text → option Key → Outcome ScanResponse;
  (** [client.datasets.create_dataset] *)
  create_dataset : CreateArgs → Outcome unit;
  (** the verification request of lines 153-159, from the url and the
      query text: the import of [httpx], the post with its timeout and
      the decoding of the answer as a JSON object; it raises when any of
      them does *)
  graphql_post : text → text → Outcome Body;
}.

(** ** Store, console and exceptions *)

Definition loc := positive.

Inductive obj :=
  | Dict (r : ChatRecord)
  | List (items : list loc).

Inductive Request :=
  | CreateDataset (args : CreateArgs)
  | HttpPost (url query : text).

Record State := {
  heap : gmap loc obj;
  stdout : list text;
  requests : list Request;
}.

Definition set_heap (h : gmap loc obj) (st : State) : State :=
  {| heap := h; stdout := stdout st; requests := requests st |}.

Inductive exception :=
  | SystemExit (code : Z)
  | Exception (what : text).

(** [OutOfFuel]: the bound on the pages of a scan was reached. *)
Inductive result (A : Type) :=
  | Ok (a : A)
  | Raise (e : exception)
  | OutOfFuel.
Arguments Ok {A} a.
Arguments Raise {A} e.
Arguments OutOfFuel {A}.

Definition M (A : Type) : Type := State → result A * State.

#[global] Instance M_ret : MRet M := λ A a st, (Ok a, st).
#[global] Instance M_bind : MBind M := λ A B f m st,
  match m st with
  | (Ok a, st') => f a st'
  | (Raise e, st') => (Raise e, st')
  | (OutOfFuel, st') => (OutOfFuel, st')
  end.

Definition raise {A} (e : exception) : M A := λ st, (Raise e, st).

(** [sys.exit(code)] *)
Definition sys_exit {A} (code : Z) : M A := raise (SystemExit code).

(** [print(line)] *)
Definition print (line : text) : M unit := λ st,
  (Ok tt, {| heap := heap st; stdout := stdout st ++ [line]; requests := requests st |}).

Definition log (r : Request) : M unit := λ st,
  (Ok tt, {| heap := heap st; stdout := stdout st; requests := requests st ++ [r] |}).

(** A new object. *)
Definition alloc (o : obj) : M loc := λ st,
  let l := fresh (dom (heap st)) in (Ok l, set_heap (<[l := o]> (heap st)) st).

(** The items of a list object; a [TypeError] on anything else. *)
Definition read_list (l : loc) : M (list loc) := λ st,
  match heap st !! l with
  | Some (List items) => (Ok items, st)
  | _ => (Raise (Exception (lit "TypeError")), st)
  end.

(** The fields of a dict object; a [TypeError] on anything else. *)
Definition read_dict (q : loc) : M ChatRecord := λ st,
  match heap st !! q with
  | Some (Dict r) => (Ok r, st)
  | _ => (Raise (Exception (lit "TypeError")), st)
  end.

Definition write_list (l : loc) (items : list loc) : M unit := λ st,
  (Ok tt, set_heap (<[l := List items]> (heap st)) st).

(** [l.append(x)] *)
Definition list_append (l x : loc) : M unit :=
  items ← read_list l; write_list l (items ++ [x]).

(** [len(l)] *)
Definition len (l : loc) : M nat :=
  items ← read_list l; mret (length items).

(** [l[i]] *)
Definition list_get (l : loc) (i : nat) : M loc :=
  items ← read_list l;
  match items !! i with
  | Some x => mret x
  | None => raise (Exception (lit "IndexError"))
  end.

(** ** [list.sort(key=..., reverse=True)]

    [list.sort] is stable, and with [reverse=True] elements with equal
    keys still keep their order: the result is the one arrangement by
    descending key that does so, computed here by insertion. *)
Section Sort.
Context {A : Type} (key : A → Z).

Fixpoint insert_desc (x : A) (l : list A) : list A :=
  match l with
  | [] => [x]
  | y :: l' => if (key x <? key y)%Z then y :: insert_desc x l' else x :: l
  end.

Fixpoint sort_desc (l : list A) : list A :=
  match l with
  | [] => []
  | x :: l' => insert_desc x (sort_desc l')
  end.
End Sort.

(** [l.sort(key=..., reverse=True)] with the timestamp as key: the keys
    are read first, then the list object is rearranged in place. *)
Definition list_sort_by_timestamp_reverse (l : loc) : M unit :=
  items ← read_list l;
  keys ← mapM (λ q, r ← read_dict q; mret (timestamp r)) items;
  write_list l (sort_desc fst (zip keys items)).*2.

Section Program.
Context `{U : Unicode}.

(** ** Filter (lines 70-97) *)

(** The stripped question of a record and its lower-cased form. *)
Definition stripped (r : ChatRecord) : text := Text.strip (question r).
Definition normalized (r : ChatRecord) : text := Text.lower (stripped r).

(** The two quality filters of lines 88-91; each is [true] on a record
    that it skips. *)
Definition too_short (r : ChatRecord) : bool :=
  length (stripped r) <? 15.
Definition error_without_select (r : ChatRecord) : bool :=
  Text.contains (lit "error") (Text.lower (sql r)) &&
  negb (Text.contains (lit "select") (Text.lower (sql r))).

(** The body of [for q in queries] over the items still to visit (the
    loop does not write to [queries], so its items are read once);
    [continue] goes on with the rest, [break] returns. *)
Fixpoint for_queries (golden : loc) (target : Z) (seen_questions : gset text)
    (qs : list loc) : M unit :=
  match qs with
  | [] => mret tt
  | q :: rest =>
      r ← read_dict q;
      let question := Text.strip (question r) in
      let q_normalized := Text.lower question in
      if decide (q_normalized ∈ seen_questions) then
        for_queries golden target seen_questions rest
      else
        let seen_questions := {[ q_normalized ]} ∪ seen_questions in
        if length question <? 15 then
          for_queries golden target seen_questions rest
        else if Text.contains (lit "error") (Text.lower (sql r)) &&
                negb (Text.contains (lit "select") (Text.lower (sql r))) then
          for_queries golden target seen_questions rest
        else
          list_append golden q;;
          n ← len golden;
          if (target <=? Z.of_nat n)%Z then mret tt
          else for_queries golden target seen_questions rest
  end.

Definition filter_golden (queries : loc) (target : Z) : M loc :=
  let seen_questions : gset text := ∅ in
  golden ← alloc (List []);
  list_sort_by_timestamp_reverse queries;;
  qs ← read_list queries;
  for_queries golden target seen_questions qs;;
  mret golden.

(** ** Fetcher (lines 32-67) *)

(** Truth value of a text field read with [item.get]: [None] and the
    empty string are falsy. *)
Definition truthy (v : option text) : bool :=
  match v with
  | Some (_ :: _) => true
  | Some [] => false
  | None => false
  end.

(** Truth value of [response.get("LastEvaluatedKey")]. *)
Definition truthy_key (k : option Key) : bool :=
  match k with
  | Some (_ :: _) => true
  | _ => false
  end.

(** The condition of line 51. *)
Definition qualifies (item : Item) : bool :=
  truthy (item_sql item) && truthy (item_question item) &&
  truthy (item_insights item).

(** The dict of lines 52-59. *)
Definition new_record (item : Item) : ChatRecord :=
  {| question := default (lit "") (item_question item);
     sql := default (lit "") (item_sql item);
     insights := default (lit "") (item_insights item);
     timestamp := default 0%Z (item_timestamp item);
     user_email := default (lit "") (item_user_email item);
     session_id := default (lit "") (item_session_id item) |}.

(** A call of a service from the process. *)
Definition call {A} (o : Outcome A) : M A :=
  match o with
  | Returns a => mret a
  | Raises what => raise (Exception what)
  end.

(** [for item in items] *)
Fixpoint for_items (queries : loc) (items : list Item) : M unit :=
  match items with
  | [] => mret tt
  | item :: rest =>
      (if qualifies item then
         d ← alloc (Dict (new_record item));
         list_append queries d
       else mret tt);;
      for_items queries rest
  end.

(** [while True], with a bound on the number of pages. *)
Fixpoint scan_loop (fuel : nat) (scan : option Key → Outcome ScanResponse)
    (queries : loc) (scan_kwargs : option Key) : M unit :=
  match fuel with
  | O => λ st, (OutOfFuel, st)
  | S fuel =>
      response ← call (scan scan_kwargs);
      let items := default [] (Items response) in
      for_items queries items;;
      let last_key := LastEvaluatedKey response in
      if negb (truthy_key last_key) then mret tt
      else scan_loop fuel scan queries last_key
  end.

Definition scan_chat_history (fuel : nat) (w : World) (table_name : text)
    : M loc :=
  print (lit "Scanning DynamoDB table '" ++ table_name ++ lit "'...");;
  queries ← alloc (List []);
  scan_loop fuel (table_scan w table_name) queries None;;
  mret queries.

(** ** Publisher and [main] (lines 25-29, 100-170) *)

Definition PHOENIX_URL (w : World) : text :=
  default (lit "https://phoenix.songbird.live") (environ w !! "PHOENIX_URL").
Definition CHAT_HISTORY_TABLE (w : World) : text :=
  default (lit "songbird-chat-history") (environ w !! "CHAT_HISTORY_TABLE").
Definition DATASET_NAME : text := lit "analytics-golden-queries".
Definition DATASET_DESCRIPTION : text :=
  lit "Curated high-quality analytics queries for evaluation and testing".
Definition TARGET_COUNT : Z := 50.

Definition GRAPHQL_QUERY : text :=
  lit "{ datasets { edges { node { name exampleCount } } } }".

(** [try: body except (KeyError, Exception) as e: handler]: [SystemExit]
    is not an [Exception] and passes through. *)
Definition try_except {A} (body : M A) (handler : text → M A) : M A := λ st,
  match body st with
  | (Raise (Exception e), st') => handler e st'
  | r => r
  end.

(** The rows of lines 128-138 for one example. *)
Definition input_row (g : ChatRecord) : gmap string text :=
  {[ "question" := question g ]}.
Definition output_row (g : ChatRecord) : gmap string text :=
  <[ "sql" := sql g ]> {[ "insights" := insights g ]}.
Definition metadata_row (g : ChatRecord) : gmap string text :=
  <[ "source" := lit "dynamodb_chat_history" ]>
  (<[ "user_email" := user_email g ]>
  (<[ "session_id" := session_id g ]>
  {[ "timestamp" := Text.str (timestamp g) ]})).

(** A list comprehension [[row(g) for g in golden]]. *)
Definition comprehension (row : ChatRecord → gmap string text) (golden : loc)
    : M (list (gmap string text)) :=
  gs ← read_list golden;
  mapM (λ g, r ← read_dict g; mret (row r)) gs.

(** The body of the sample loop of lines 119-122. *)
Definition print_sample (golden : loc) (i : nat) : M unit :=
  g ← list_get golden i;
  r ← read_dict g;
  print (Text.nl ++ lit "  [" ++ Text.str (Z.of_nat (i + 1)) ++ lit "] Question: "
         ++ Text.slice_to 100 (question r));;
  g ← list_get golden i;
  r ← read_dict g;
  print (lit "      SQL: " ++ Text.slice_to 100 (sql r) ++ lit "...");;
  g ← list_get golden i;
  r ← read_dict g;
  print (lit "      Insights: " ++ Text.slice_to 100 (insights r) ++ lit "...").

(** The edges of the verification answer (lines 159-161): [.get] gives
    its default for an absent key only, so a [null] level is [None] and
    the next [.get], or the iteration over the edges, raises. *)
Definition edges_of (body : Body) : Outcome (list Edge) :=
  match data body with
  | Absent => Returns []
  | Null => Raises (lit "'NoneType' object has no attribute 'get'")
  | Value d =>
      match datasets d with
      | Absent => Returns []
      | Null => Raises (lit "'NoneType' object has no attribute 'get'")
      | Value ds =>
          match edges ds with
          | Absent => Returns []
          | Null => Raises (lit "'NoneType' object is not iterable")
          | Value es => Returns es
          end
      end
  end.

(** The handler of lines 150-167. *)
Definition verify (w : World) (e : text) : M unit :=
  log (HttpPost (PHOENIX_URL w ++ lit "/graphql") GRAPHQL_QUERY);;
  body ← call (graphql_post w (PHOENIX_URL w ++ lit "/graphql") GRAPHQL_QUERY);
  datasets ← call (edges_of body);
  let match_ := filter (λ d, name (node d) = DATASET_NAME) datasets in
  match match_ with
  | m :: _ =>
      let count := exampleCount (node m) in
      print (Text.nl ++ lit "Dataset created successfully! (" ++ Text.str count
             ++ lit " examples)")
  | [] =>
      print (Text.nl ++ lit "Warning: Upload may have failed - " ++ e);;
      sys_exit 1
  end.

(** The [try] statement of lines 141-167. *)
Definition upload (w : World) (inputs outputs metadata : list (gmap string text))
    : M unit :=
  try_except
    (let args := {| arg_name := DATASET_NAME;
                    arg_dataset_description := DATASET_DESCRIPTION;
                    arg_inputs := inputs;
                    arg_outputs := outputs;
                    arg_metadata := metadata |} in
     log (CreateDataset args);;
     call (create_dataset w args);;
     print (Text.nl ++ lit "Dataset created successfully!"))
    (verify w).

(** [Client(base_url=PHOENIX_URL)] of line 126 only builds the client
    object and has no part here. *)
Definition main (fuel : nat) (w : World) : M unit :=
  queries ← scan_chat_history fuel w (CHAT_HISTORY_TABLE w);
  n ← len queries;
  print (lit "Found " ++ Text.str (Z.of_nat n)
         ++ lit " successful queries with SQL and insights");;
  n ← len queries;
  (if n =? 0 then
     print (lit "No queries found. Use the analytics chat in the dashboard first.");;
     sys_exit 1
   else mret tt);;
  golden ← filter_golden queries TARGET_COUNT;
  n ← len golden;
  print (lit "Filtered to " ++ Text.str (Z.of_nat n) ++ lit " golden examples");;
  n ← len golden;
  (if n =? 0 then
     print (lit "No examples passed quality filters.");;
     sys_exit 1
   else mret tt);;
  print (Text.nl ++ lit "Sample examples:");;
  n ← len golden;
  mapM (print_sample golden) (seq 0 (3 `min` n));;
  print (Text.nl ++ lit "Connecting to Phoenix at " ++ PHOENIX_URL w ++ lit "...");;
  inputs ← comprehension input_row golden;
  outputs ← comprehension output_row golden;
  metadata ← comprehension metadata_row golden;
  n ← len golden;
  print (lit "Creating dataset '" ++ DATASET_NAME ++ lit "' with "
         ++ Text.str (Z.of_nat n) ++ lit " examples...");;
  upload w inputs outputs metadata;;
  print (lit "View in Phoenix UI: " ++ PHOENIX_URL w);;
  print (lit "Navigate to: Datasets > " ++ DATASET_NAME).

(** The module: the import guard of lines 17-23, then [main()]. *)
Definition script (fuel : nat) (w : World) : M unit :=
  match import_error w with
  | Some e =>
      print (lit "Error: Missing dependency - " ++ e);;
      print (lit "Install with: pip3 install arize-phoenix-client boto3");;
      sys_exit 1
  | None => main fuel w
  end.

Definition initial : State := {| heap := ∅; stdout := []; requests := [] |}.

(** The exit status of the process: 0 when the module runs to its end,
    the code of a [SystemExit], and 1 when another exception reaches the
    top level and the interpreter prints its traceback. *)
Definition exit_status {A} (r : result A) : option Z :=
  match r with
  | Ok _ => Some 0%Z
  | Raise (SystemExit code) => Some code
  | Raise (Exception _) => Some 1%Z
  | OutOfFuel => None
  end.

Definition run (fuel : nat) (w : World) : option Z * State :=
  let '(r, st) := script fuel w initial in (exit_status r, st).

(** ** Vocabulary of the statements *)

(** The record behind an address. *)
Definition deref (h : gmap loc obj) (q : loc) : option ChatRecord :=
  match h !! q with
  | Some (Dict r) => Some r
  | _ => None
  end.

(** In [h] the object [l] is a list of the dicts [qs], and [rs] are their
    fields, in that order. *)
Definition holds_list (h : gmap loc obj) (l : loc) (qs : list loc)
    (rs : list ChatRecord) : Prop :=
  h !! l = Some (List qs) ∧ mapM (deref h) qs = Some rs.

(** Most recent first. *)
Definition newer_first (a b : ChatRecord) : Prop :=
  (timestamp b ≤ timestamp a)%Z.

(** A record passes both quality filters. *)
Definition passes (r : ChatRecord) : bool :=
  negb (too_short r) && negb (error_without_select r).

(** The candidates that a scan in the given order accepts when it never
    stops early: the first bearer of each normalized question, when it
    passes the quality filters. *)
Section Accept.
Context {A : Type} (rec : A → ChatRecord).

Fixpoint accept (seen : gset text) (l : list A) : list A :=
  match l with
  | [] => []
  | a :: l' =>
      if decide (normalized (rec a) ∈ seen) then accept seen l'
      else if passes (rec a)
           then a :: accept ({[ normalized (rec a) ]} ∪ seen) l'
           else accept ({[ normalized (rec a) ]} ∪ seen) l'
  end.
End Accept.

(** The candidates of a list that pass the deduplication and the quality
    checks, most recent first. *)
Definition passing (rs : list ChatRecord) : list ChatRecord :=
  accept id ∅ (sort_desc timestamp rs).

(** How many more examples the loop takes when it already has [have]. *)
Definition take_count (target : Z) (have : nat) : nat :=
  Z.to_nat (Z.max 1 (target - Z.of_nat have)).

(** The records of the list that [filter_golden] returns. *)
Definition golden_records (rs : list ChatRecord) (target : Z)
    : list ChatRecord :=
  take (take_count target 0) (passing rs).

(** The items that the store serves to a scan that follows the cursors
    from [cursor], within [fuel] pages. *)
Fixpoint scanned (fuel : nat) (scan : option Key → Outcome ScanResponse)
    (cursor : option Key) : result (list Item) :=
  match fuel with
  | O => OutOfFuel
  | S fuel =>
      match scan cursor with
      | Raises what => Raise (Exception what)
      | Returns response =>
          let items := default [] (Items response) in
          if truthy_key (LastEvaluatedKey response) then
            match scanned fuel scan (LastEvaluatedKey response) with
            | Ok rest => Ok (items ++ rest)
            | r => r
            end
          else Ok items
      end
  end.

(** The records of the fetcher's result. *)
Definition fetched (fuel : nat) (w : World) : result (list ChatRecord) :=
  match scanned fuel (table_scan w (CHAT_HISTORY_TABLE w)) None with
  | Ok items => Ok (new_record <$> filter (λ i, qualifies i = true) items)
  | Raise e => Raise e
  | OutOfFuel => OutOfFuel
  end.

(** The arguments of the upload of the examples [gs]. *)
Definition payload (gs : list ChatRecord) : CreateArgs :=
  {| arg_name := DATASET_NAME;
     arg_dataset_description := DATASET_DESCRIPTION;
     arg_inputs := input_row <$> gs;
     arg_outputs := output_row <$> gs;
     arg_metadata := metadata_row <$> gs |}.

(** The outcome of the verification of lines 153-161: the edges of the
    answer, or the exception of the request or of the reading of an
    answer with a [null] level. *)
Definition verification (w : World) : Outcome (list Edge) :=
  match graphql_post w (PHOENIX_URL w ++ lit "/graphql") GRAPHQL_QUERY with
  | Returns body => edges_of body
  | Raises what => Raises what
  end.

(** The datasets of the fixed name among the edges of a verification
    answer. *)
Definition matching (es : list Edge) : list Edge :=
  filter (λ d, name (node d) = DATASET_NAME) es.

(** A text field is present and not empty. *)
Definition present (v : option text) : Prop :=
  ∃ s, v = Some s ∧ s ≠ lit "".

(** The console after more lines. *)
Definition out_lines (lines : list text) (st : State) : State :=
  {| heap := heap st; stdout := stdout st ++ lines; requests := requests st |}.

(** The three lines that the sample loop prints for the example of index
    [i] (lines 120-122). *)
Definition sample_lines (i : nat) (r : ChatRecord) : list text :=
  [ Text.nl ++ lit "  [" ++ Text.str (Z.of_nat (i + 1)) ++ lit "] Question: "
      ++ Text.slice_to 100 (question r);
    lit "      SQL: " ++ Text.slice_to 100 (sql r) ++ lit "...";
    lit "      Insights: " ++ Text.slice_to 100 (insights r) ++ lit "..." ].

(** The lines of the sample loop over the examples [rs], the first of
    them of index [i]. *)
Fixpoint sample_block (i : nat) (rs : list ChatRecord) : list text :=
  match rs with
  | [] => []
  | r :: rs' => sample_lines i r ++ sample_block (S i) rs'
  end.

(** The console of a run from the start of [main] up to the upload, for
    the fetched records [rs] and the examples [grs]. *)
Definition console_to_upload (w : World) (rs grs : list ChatRecord)
    : list text :=
  [ lit "Scanning DynamoDB table '" ++ CHAT_HISTORY_TABLE w ++ lit "'...";
    lit "Found " ++ Text.str (Z.of_nat (length rs))
      ++ lit " successful queries with SQL and insights";
    lit "Filtered to " ++ Text.str (Z.of_nat (length grs)) ++ lit " golden examples";
    Text.nl ++ lit "Sample examples:" ]
  ++ sample_block 0 (take 3 grs)
  ++ [ Text.nl ++ lit "Connecting to Phoenix at " ++ PHOENIX_URL w ++ lit "...";
       lit "Creating dataset '" ++ DATASET_NAME ++ lit "' with "
         ++ Text.str (Z.of_nat (length grs)) ++ lit " examples..." ].

End Program.

(** ** Sample data *)

Module Example.

(** Tables for the sample data, which is all in ASCII: on ASCII code
    points they are the tables of the interpreter (whitespace is 9-13,
    28-31 and the space; the letters A-Z have a lower-case form). *)
Definition ascii_isspace (c : code_point) : bool :=
  (((9 <=? c) && (c <=? 13)) || ((28 <=? c) && (c <=? 32)))%N.
Definition ascii_lower (c : code_point) : code_point :=
  (if (65 <=? c) && (c <=? 90) then c + 32 else c)%N.
Definition tables : Unicode :=
  {| str_isspace := ascii_isspace; str_lower := fmap ascii_lower |}.

Definition record (q s : text) (t : Z) : ChatRecord :=
  {| question := q; sql := s; insights := lit "Twelve devices reported.";
     timestamp := t; user_email := lit "ops@example.com"; session_id := lit "s-1" |}.

(** The addresses of the dicts of a list of [n] records, after the
    list object itself at address 1. *)
Definition addresses (n : nat) : list loc := Pos.of_nat <$> seq 2 n.

(** A store in which the list at address 1 holds dicts of the fields
    [rs]. *)
Definition store (rs : list ChatRecord) : State :=
  {| heap := <[ 1%positive := List (addresses (length rs)) ]>
               (list_to_map (zip (addresses (length rs)) (Dict <$> rs)));
     stdout := [];
     requests := [] |}.

Definition older : ChatRecord :=
  record (lit "  Which devices reported today?  ") (lit "SELECT serial FROM devices") 10.
Definition newest : ChatRecord :=
  record (lit "which devices reported today?") (lit "error: query timed out") 30.
Definition average : ChatRecord :=
  record (lit "Show average temperature by site") (lit "SELECT avg(t) FROM readings") 20.
Definition short : ChatRecord :=
  record (lit "show me") (lit "SELECT 2") 20.
Definition battery : ChatRecord :=
  record (lit "Show battery trend for last week") (lit "select error_count from logs") 20.

Definition candidates : list ChatRecord :=
  [older; newest; average; short; battery].

Definition item (q s : option text) (t : Z) : Item :=
  {| item_sql := s; item_question := q;
     item_insights := Some (lit "Twelve devices reported.");
     item_timestamp := Some t;
     item_user_email := Some (lit "ops@example.com");
     item_session_id := None |}.

Definition first_page : list Item :=
  [ item (Some (lit "Which devices reported today?")) (Some (lit "SELECT serial FROM devices")) 10;
    item (Some (lit "")) (Some (lit "SELECT 1")) 3;
    item (Some (lit "How many alerts fired this week?")) None 4 ].
Definition second_page : list Item :=
  [ item (Some (lit "Show average temperature by site"))
         (Some (lit "SELECT avg(t) FROM readings")) 20 ].

(** A table of two pages. *)
Definition table (cursor : option Key) : Outcome ScanResponse :=
  match cursor with
  | None => Returns {| Items := Some first_page;
                       LastEvaluatedKey := Some [(lit "id", lit "a1")] |}
  | Some _ => Returns {| Items := Some second_page;
                         LastEvaluatedKey := None |}
  end.

Definition body (count : Z) : Body :=
  {| data := Value {| datasets := Value {| edges := Value
       [ {| node := {| name := lit "smoke-test"; exampleCount := 3 |} |};
         {| node := {| name := DATASET_NAME; exampleCount := count |} |} ] |} |} |}.

(** A run in which the upload raises and the verification finds the
    dataset with 42 examples. *)
Definition world : World :=
  {| import_error := None;
     environ := ∅;
     table_scan := λ _, table;
     create_dataset := λ _, Raises (lit "'NoneType' object is not subscriptable");
     graphql_post := λ _ _, Returns (body 42) |}.

(** The records that the fetcher makes of the two pages. *)
Definition fetched_records : list ChatRecord :=
  [ {| question := lit "Which devices reported today?";
       sql := lit "SELECT serial FROM devices";
       insights := lit "Twelve devices reported.";
       timestamp := 10; user_email := lit "ops@example.com"; session_id := lit "" |};
    {| question := lit "Show average temperature by site";
       sql := lit "SELECT avg(t) FROM readings";
       insights := lit "Twelve devices reported.";
       timestamp := 20; user_email := lit "ops@example.com"; session_id := lit "" |} ].

(** The same store and a service that accepts the upload, in a process
    in which [boto3] cannot be imported. *)
Definition missing_dependency : World :=
  {| import_error := Some (lit "No module named 'boto3'");
     environ := ∅;
     table_scan := λ _, table;
     create_dataset := λ _, Returns tt;
     graphql_post := λ _ _, Returns (body 42) |}.

(** Variations of the run: another table, another answer to the upload
    and to the verification. *)
Definition world_with (scan : option Key → Outcome ScanResponse)
    (create : Outcome unit) (post : Outcome Body) : World :=
  {| import_error := None;
     environ := ∅;
     table_scan := λ _, scan;
     create_dataset := λ _, create;
     graphql_post := λ _ _, post |}.

(** A store that cannot be reached. *)
Definition unreachable (cursor : option Key) : Outcome ScanResponse :=
  Raises (lit "Could not connect to the endpoint URL").

(** A store that answers every call with a cursor. *)
Definition endless (cursor : option Key) : Outcome ScanResponse :=
  Returns {| Items := Some second_page;
             LastEvaluatedKey := Some [(lit "id", lit "a1")] |}.

(** A store whose only page ends with an empty cursor. *)
Definition one_page (cursor : option Key) : Outcome ScanResponse :=
  Returns {| Items := Some first_page; LastEvaluatedKey := Some [] |}.

(** A store without a qualifying item, and one whose only qualifying
    item has a short question. *)
Definition no_items (cursor : option Key) : Outcome ScanResponse :=
  Returns {| Items := None; LastEvaluatedKey := None |}.
Definition short_only (cursor : option Key) : Outcome ScanResponse :=
  Returns {| Items := Some [item (Some (lit "show me")) (Some (lit "SELECT 2")) 20];
             LastEvaluatedKey := None |}.

(** An answer of the verification without the dataset. *)
Definition other_body : Body :=
  {| data := Value {| datasets := Value {| edges := Value
       [ {| node := {| name := lit "smoke-test"; exampleCount := 3 |} |} ] |} |} |}.

(** Candidates that all pass, with distinct questions. *)
Definition distinct : list ChatRecord := [average; older; battery].

(** The answer whose data is null. *)
Definition null_body : Body := {| data := Null |}.

End Example.

(** * Properties *)

Section Properties.
Context `{U : Unicode}.

(** ** Lists *)

Lemma sublist_StronglySorted {A} (R : relation A) (l1 l2 : list A) :
  l1 `sublist_of` l2 → StronglySorted R l2 → StronglySorted R l1.
Proof.
  induction 1 as [|x l1 l2 Hsub IH|x l1 l2 Hsub IH]; intros Hs.
  - constructor.
  - apply StronglySorted_inv in Hs as [Hs Hall]. constructor; [by apply IH|].
    apply Forall_forall. intros y Hy.
    rewrite Forall_forall in Hall. apply Hall. by eapply elem_of_sublist.
  - apply StronglySorted_inv in Hs as [Hs _]. by apply IH.
Qed.

Lemma sublist_filter_mono {A} (P : A → Prop) `{!∀ x, Decision (P x)}
    (l1 l2 : list A) :
  l1 `sublist_of` l2 → filter P l1 `sublist_of` filter P l2.
Proof.
  induction 1 as [|x l1 l2 Hsub IH|x l1 l2 Hsub IH].
  - done.
  - rewrite !filter_cons. case_decide; [by constructor|done].
  - rewrite filter_cons. case_decide; [by constructor|done].
Qed.

Lemma sublist_Forall {A} (P : A → Prop) (l1 l2 : list A) :
  l1 `sublist_of` l2 → Forall P l2 → Forall P l1.
Proof.
  intros Hsub. rewrite !Forall_forall. intros Hall x Hx.
  apply Hall. by eapply elem_of_sublist.
Qed.

(** ** The stable descending sort *)

Section SortFacts.
Context {A : Type} (key : A → Z).

Let R : relation A := λ a b, (key b ≤ key a)%Z.

Lemma insert_desc_Permutation x l : insert_desc key x l ≡ₚ x :: l.
Proof.
  induction l as [|y l IH]; simpl; [done|].
  case_match; [|done]. by rewrite IH, Permutation_swap.
Qed.

Lemma sort_desc_Permutation l : sort_desc key l ≡ₚ l.
Proof.
  induction l as [|x l IH]; simpl; [done|].
  by rewrite insert_desc_Permutation, IH.
Qed.

Lemma insert_desc_sorted x l :
  StronglySorted R l → StronglySorted R (insert_desc key x l).
Proof.
  induction l as [|y l IH]; simpl; intros Hs.
  - repeat constructor.
  - apply StronglySorted_inv in Hs as [Hs Hall].
    destruct (key x <? key y)%Z eqn:Hlt.
    + apply Z.ltb_lt in Hlt. constructor; [by apply IH|].
      rewrite insert_desc_Permutation. constructor; [unfold R; lia|done].
    + apply Z.ltb_ge in Hlt. constructor; [by constructor|].
      constructor; [done|].
      eapply Forall_impl; [exact Hall|]. unfold R. intros z Hz. simpl in *. lia.
Qed.

Lemma sort_desc_sorted l : StronglySorted R (sort_desc key l).
Proof.
  induction l as [|x l IH]; simpl; [constructor|by apply insert_desc_sorted].
Qed.

(** Stability: the elements of one key keep their order. *)
Lemma insert_desc_stable t x l :
  filter (λ a, key a = t) (insert_desc key x l)
  = filter (λ a, key a = t) (x :: l).
Proof.
  induction l as [|y l IH]; simpl; [done|].
  destruct (key x <? key y)%Z eqn:Hlt; [|done].
  apply Z.ltb_lt in Hlt.
  rewrite (filter_cons _ y), IH, !filter_cons.
  repeat case_decide; try done; lia.
Qed.

Lemma sort_desc_stable t l :
  filter (λ a, key a = t) (sort_desc key l) = filter (λ a, key a = t) l.
Proof.
  induction l as [|x l IH]; simpl; [done|].
  by rewrite insert_desc_stable, !filter_cons, IH.
Qed.

(** A list already in descending order is left as it is. *)
Lemma insert_desc_head x l :
  Forall (R x) l → insert_desc key x l = x :: l.
Proof.
  destruct l as [|y l]; simpl; [done|]. intros Hall.
  apply Forall_cons in Hall as [Hy _]. unfold R in Hy.
  destruct (key x <? key y)%Z eqn:Hlt; [|done].
  apply Z.ltb_lt in Hlt. lia.
Qed.

Lemma sort_desc_id l : StronglySorted R l → sort_desc key l = l.
Proof.
  induction 1 as [|x l Hs IH Hall]; simpl; [done|].
  rewrite IH. by apply insert_desc_head.
Qed.
End SortFacts.

Lemma insert_desc_fmap {A B} (key : B → Z) (f : A → B) x (l : list A) :
  insert_desc key (f x) (f <$> l) = f <$> insert_desc (key ∘ f) x l.
Proof.
  induction l as [|y l IH]; [done|].
  rewrite fmap_cons. simpl insert_desc. unfold compose at 1.
  destruct (key (f x) <? key (f y))%Z; [|done].
  rewrite fmap_cons, IH. reflexivity.
Qed.

Lemma sort_desc_fmap {A B} (key : B → Z) (f : A → B) (l : list A) :
  sort_desc key (f <$> l) = f <$> sort_desc (key ∘ f) l.
Proof.
  induction l as [|x l IH]; [done|].
  rewrite fmap_cons. simpl sort_desc. by rewrite IH, insert_desc_fmap.
Qed.

(** ** The candidates a scan accepts *)

Section AcceptFacts.
Context {A : Type} (rec : A → ChatRecord).

Lemma accept_sublist seen l : accept rec seen l `sublist_of` l.
Proof.
  revert seen. induction l as [|a l IH]; intros seen; simpl; [done|].
  case_decide; [by constructor|].
  case_match; by constructor.
Qed.

Lemma accept_passes seen l :
  Forall (λ a, passes (rec a) = true) (accept rec seen l).
Proof.
  revert seen. induction l as [|a l IH]; intros seen; simpl; [constructor|].
  case_decide; [done|].
  destruct (passes (rec a)) eqn:Hp; [by constructor|done].
Qed.

Lemma accept_not_seen seen l a :
  a ∈ accept rec seen l → normalized (rec a) ∉ seen.
Proof.
  revert seen. induction l as [|b l IH]; intros seen; simpl.
  - by intros ?%elem_of_nil.
  - case_decide as Hb; [by apply IH|].
    case_match.
    + intros [->|Ha%IH]%elem_of_cons; [done|set_solver].
    + intros Ha%IH. set_solver.
Qed.

Lemma accept_NoDup seen l :
  NoDup (normalized ∘ rec <$> accept rec seen l).
Proof.
  revert seen. induction l as [|a l IH]; intros seen; simpl; [constructor|].
  case_decide; [done|].
  case_match; [|done].
  rewrite fmap_cons. constructor; [|done].
  intros (b & Hb & Hin%accept_not_seen)%list_elem_of_fmap.
  simpl in Hb. set_solver.
Qed.

(** An accepted candidate is the first of its normalized question. *)
Lemma accept_first seen l a :
  a ∈ accept rec seen l →
  ∃ l1 l2, l = l1 ++ a :: l2 ∧
           ∀ b, b ∈ l1 → normalized (rec b) ≠ normalized (rec a).
Proof.
  revert seen. induction l as [|b l IH]; intros seen; simpl.
  - by intros ?%elem_of_nil.
  - assert (∀ seen', normalized (rec b) ∈ seen' → a ∈ accept rec seen' l →
      ∃ l1 l2, b :: l = l1 ++ a :: l2 ∧
               ∀ c, c ∈ l1 → normalized (rec c) ≠ normalized (rec a))
      as Hskip.
    { intros seen' Hb Ha. pose proof (accept_not_seen _ _ _ Ha) as Hns.
      destruct (IH _ Ha) as (l1 & l2 & -> & Hl1).
      exists (b :: l1), l2. split; [done|].
      intros c [->|Hc]%elem_of_cons; [congruence|by apply Hl1]. }
    case_decide as Hb; [by apply Hskip|].
    case_match.
    + intros [->|Ha]%elem_of_cons.
      * exists [], l. split; [done|]. by intros c ?%elem_of_nil.
      * apply (Hskip ({[normalized (rec b)]} ∪ seen)); [set_solver|done].
    + apply Hskip. set_solver.
Qed.
End AcceptFacts.

Lemma accept_fmap {A B} (rec : B → ChatRecord) (f : A → B) seen (l : list A) :
  accept rec seen (f <$> l) = f <$> accept (rec ∘ f) seen l.
Proof.
  revert seen. induction l as [|a l IH]; intros seen; [done|].
  rewrite fmap_cons. simpl accept. unfold compose in *.
  case_decide; [done|].
  destruct (passes (rec (f a))); [rewrite fmap_cons|]; by rewrite IH.
Qed.

(** ** Running a computation *)

Lemma bind_Ok {A B} (m : M A) (f : A → M B) st a st' :
  m st = (Ok a, st') → (m ≫= f) st = f a st'.
Proof. intros H. unfold mbind, M_bind. by rewrite H. Qed.

Lemma bind_Raise {A B} (m : M A) (f : A → M B) st e st' :
  m st = (Raise e, st') → (m ≫= f) st = (Raise e, st').
Proof. intros H. unfold mbind, M_bind. by rewrite H. Qed.

Lemma bind_OutOfFuel {A B} (m : M A) (f : A → M B) st st' :
  m st = (OutOfFuel, st') → (m ≫= f) st = (OutOfFuel, st').
Proof. intros H. unfold mbind, M_bind. by rewrite H. Qed.

(** One step of a run: the first computation of a sequence returns. *)
Tactic Notation "step" open_constr(H) := rewrite (bind_Ok _ _ _ _ _ H).

Lemma set_heap_id st : set_heap (heap st) st = st.
Proof. by destruct st. Qed.

Lemma set_heap_set_heap h h' st : set_heap h (set_heap h' st) = set_heap h st.
Proof. done. Qed.

Lemma deref_Some h q r : deref h q = Some r ↔ h !! q = Some (Dict r).
Proof.
  unfold deref. destruct (h !! q) as [[]|]; split; intros; simplify_eq; done.
Qed.

(** Writing a list object does not touch the dicts. *)
Lemma deref_insert_List h l items q r :
  deref h l = None → deref h q = Some r →
  deref (<[l := List items]> h) q = Some r.
Proof.
  intros Hl Hq. assert (l ≠ q) by congruence.
  unfold deref in *. by rewrite lookup_insert_ne.
Qed.

Lemma derefs_insert_List h l items (qs : list loc) (rs : list ChatRecord) :
  deref h l = None →
  Forall2 (λ q r, deref h q = Some r) qs rs →
  Forall2 (λ q r, deref (<[l := List items]> h) q = Some r) qs rs.
Proof.
  intros Hl Hqs. eapply Forall2_impl; [exact Hqs|].
  intros q r. by apply deref_insert_List.
Qed.

Lemma deref_List h l items : h !! l = Some (List items) → deref h l = None.
Proof. unfold deref. by intros ->. Qed.

Lemma deref_fresh h : deref h (fresh (dom h)) = None.
Proof.
  unfold deref. by rewrite (not_elem_of_dom_1 h (fresh (dom h)) (is_fresh _)).
Qed.

Lemma read_list_run st l items :
  heap st !! l = Some (List items) → read_list l st = (Ok items, st).
Proof. unfold read_list. by intros ->. Qed.

Lemma read_dict_run st q r :
  deref (heap st) q = Some r → read_dict q st = (Ok r, st).
Proof. intros H%deref_Some. unfold read_dict. by rewrite H. Qed.

Lemma len_run st l items :
  heap st !! l = Some (List items) → len l st = (Ok (length items), st).
Proof. intros H. unfold len. by rewrite (bind_Ok _ _ _ _ _ (read_list_run _ _ _ H)). Qed.

Lemma list_get_run st l items i x :
  heap st !! l = Some (List items) → items !! i = Some x →
  list_get l i st = (Ok x, st).
Proof.
  intros H Hi. unfold list_get.
  rewrite (bind_Ok _ _ _ _ _ (read_list_run _ _ _ H)). by rewrite Hi.
Qed.

Lemma list_append_run st l items x :
  heap st !! l = Some (List items) →
  list_append l x st
  = (Ok tt, set_heap (<[l := List (items ++ [x])]> (heap st)) st).
Proof.
  intros H. unfold list_append.
  by rewrite (bind_Ok _ _ _ _ _ (read_list_run _ _ _ H)).
Qed.

(** Reading a field of every dict of a list leaves the state as it is. *)
Lemma mapM_read_dict_run {B} (f : ChatRecord → B) st (qs : list loc)
    (rs : list ChatRecord) :
  Forall2 (λ q r, deref (heap st) q = Some r) qs rs →
  mapM (λ q, r ← read_dict q; mret (f r)) qs st = (Ok (f <$> rs), st).
Proof.
  induction 1 as [|q r qs rs Hq Hqs IH]; [done|].
  simpl mapM.
  rewrite (bind_Ok _ _ st (f r) st).
  - by rewrite (bind_Ok _ _ _ _ _ IH).
  - by rewrite (bind_Ok _ _ _ _ _ (read_dict_run _ _ _ Hq)).
Qed.

(** ** The filter's loop *)

Lemma take_count_last target n :
  (target ≤ Z.of_nat (n + 1))%Z → take_count target n = 1.
Proof. unfold take_count. lia. Qed.

Lemma take_count_step target n :
  ¬ (target ≤ Z.of_nat (n + 1))%Z →
  take_count target n = S (take_count target (n + 1)).
Proof. unfold take_count. lia. Qed.

Lemma for_queries_run golden target (qs : list loc) :
  ∀ (rs : list ChatRecord) seen acc st,
    heap st !! golden = Some (List acc) →
    Forall2 (λ q r, deref (heap st) q = Some r) qs rs →
    for_queries golden target seen qs st
    = (Ok tt,
       set_heap (<[golden := List (acc ++
                   (take (take_count target (length acc))
                         (accept snd seen (zip qs rs))).*1)]> (heap st)) st).
Proof.
  induction qs as [|q qs IH]; intros rs seen acc st Hg Hqs.
  - apply Forall2_nil_inv_l in Hqs as ->. simpl.
    rewrite take_nil, app_nil_r, insert_id by done. by rewrite set_heap_id.
  - apply Forall2_cons_inv_l in Hqs as (r & rs' & Hq & Hqs & ->).
    simpl for_queries. rewrite (bind_Ok _ _ _ _ _ (read_dict_run _ _ _ Hq)).
    change (Text.lower (Text.strip (question r))) with (normalized r).
    change (length (Text.strip (question r)) <? 15) with (too_short r).
    change (Text.contains (lit "error") (Text.lower (sql r)) &&
            negb (Text.contains (lit "select") (Text.lower (sql r))))
      with (error_without_select r).
    simpl zip. simpl accept. unfold passes.
    destruct (decide (normalized r ∈ seen)) as [Hseen|Hseen]; [by apply IH|].
    destruct (too_short r); [by apply IH|].
    destruct (error_without_select r); [by apply IH|]. simpl negb. simpl andb.
    step ((list_append_run _ _ _ _ Hg)).
    set (st1 := set_heap _ st).
    assert (heap st1 !! golden = Some (List (acc ++ [q]))) as Hg1
      by apply lookup_insert_eq.
    step ((len_run _ _ _ Hg1)).
    rewrite length_app. simpl.
    destruct (target <=? Z.of_nat (length acc + 1))%Z eqn:Hle.
    + apply Z.leb_le in Hle. by rewrite take_count_last.
    + apply Z.leb_nle in Hle. rewrite take_count_step by done. simpl take.
      rewrite (IH rs' _ (acc ++ [q]) st1 Hg1).
      * subst st1. simpl heap. rewrite set_heap_set_heap, insert_insert_eq.
        rewrite length_app, fmap_cons, <-app_assoc. done.
      * subst st1. simpl heap. apply derefs_insert_List; [|done].
        by eapply deref_List.
Qed.

(** ** The filter as a whole *)

Lemma Forall2_zip {A B} (P : A → B → Prop) (l : list A) (k : list B) :
  Forall2 P l k → Forall (λ p, P p.1 p.2) (zip l k).
Proof. induction 1; simpl; by constructor. Qed.

Lemma Forall_unzip {A B} (P : A → B → Prop) (z : list (A * B)) :
  Forall (λ p, P p.1 p.2) z → Forall2 P z.*1 z.*2.
Proof. induction 1; simpl; by constructor. Qed.

Lemma zip_keys (qs : list loc) (rs : list ChatRecord) :
  zip (timestamp <$> rs) qs = (λ p, (timestamp p.2, p.1)) <$> zip qs rs.
Proof.
  revert qs. induction rs as [|r rs IH]; intros [|q qs]; simpl; try done.
  by rewrite IH.
Qed.

Lemma sort_run st l (qs : list loc) (rs : list ChatRecord) :
  heap st !! l = Some (List qs) →
  Forall2 (λ q r, deref (heap st) q = Some r) qs rs →
  list_sort_by_timestamp_reverse l st
  = (Ok tt, set_heap (<[l := List (sort_desc (timestamp ∘ snd) (zip qs rs)).*1]>
                        (heap st)) st).
Proof.
  intros Hl Hqs. unfold list_sort_by_timestamp_reverse.
  step ((read_list_run _ _ _ Hl)).
  step ((mapM_read_dict_run timestamp _ _ _ Hqs)).
  unfold write_list. do 4 f_equal.
  rewrite zip_keys, (sort_desc_fmap fst).
  rewrite <-list_fmap_compose. by apply list_fmap_ext.
Qed.

(** The state after [filter_golden]: the caller's list is sorted in place,
    a new list object holds the examples, nothing else is written. *)
Lemma filter_golden_run st ql (qs : list loc) (rs : list ChatRecord) target :
  heap st !! ql = Some (List qs) →
  Forall2 (λ q r, deref (heap st) q = Some r) qs rs →
  let g := fresh (dom (heap st)) in
  let s := sort_desc (timestamp ∘ snd) (zip qs rs) in
  let out := take (take_count target 0) (accept snd ∅ s) in
  filter_golden ql target st
  = (Ok g, set_heap (<[g := List out.*1]> (<[ql := List s.*1]> (heap st))) st).
Proof.
  intros Hl Hqs g s out. unfold filter_golden.
  assert (g ≠ ql) as Hne.
  { intros Heq. apply (is_fresh (dom (heap st))), elem_of_dom.
    exists (List qs). fold g. by rewrite Heq. }
  assert (alloc (List []) st = (Ok g, set_heap (<[g := List []]> (heap st)) st))
    as Halloc by done.
  step Halloc.
  set (st1 := set_heap _ st).
  assert (heap st1 !! ql = Some (List qs)) as Hl1.
  { subst st1. simpl. by rewrite lookup_insert_ne. }
  assert (Forall2 (λ q r, deref (heap st1) q = Some r) qs rs) as Hqs1.
  { subst st1. simpl. apply derefs_insert_List; [apply deref_fresh|done]. }
  step ((sort_run _ _ _ _ Hl1 Hqs1)).
  fold s. set (st2 := set_heap _ st1).
  assert (heap st2 !! ql = Some (List s.*1)) as Hl2 by apply lookup_insert_eq.
  step ((read_list_run _ _ _ Hl2)).
  assert (heap st2 !! g = Some (List [])) as Hg2.
  { subst st2 st1. simpl. rewrite lookup_insert_ne by done.
    apply lookup_insert_eq. }
  assert (Forall2 (λ q r, deref (heap st2) q = Some r) s.*1 s.*2) as Hs2.
  { subst st2. simpl. apply derefs_insert_List; [by eapply deref_List|].
    apply (Forall_unzip (λ q r, deref (heap st1) q = Some r)).
    unfold s. rewrite sort_desc_Permutation.
    by apply (Forall2_zip (λ q r, deref (heap st1) q = Some r)). }
  rewrite (bind_Ok _ _ _ _ _
             (for_queries_run g target _ _ ∅ [] st2 Hg2 Hs2)).
  rewrite zip_fst_snd. simpl. unfold mret, M_ret. f_equal.
  subst st2 st1. simpl. rewrite !set_heap_set_heap. f_equal.
  rewrite (insert_insert_ne _ ql g) by done. by rewrite insert_insert_eq.
Qed.

(** The records of the result are those of [golden_records]. *)
Lemma sorted_records (qs : list loc) (rs : list ChatRecord) :
  length qs = length rs →
  (sort_desc (timestamp ∘ snd) (zip qs rs)).*2 = sort_desc timestamp rs.
Proof.
  intros Hlen. rewrite <-(sort_desc_fmap timestamp snd).
  rewrite snd_zip by lia. done.
Qed.

Lemma golden_records_eq (qs : list loc) (rs : list ChatRecord) target :
  length qs = length rs →
  (take (take_count target 0)
        (accept snd ∅ (sort_desc (timestamp ∘ snd) (zip qs rs)))).*2
  = golden_records rs target.
Proof.
  intros Hlen. unfold golden_records, passing.
  rewrite fmap_take. f_equal.
  rewrite <-(sorted_records qs rs Hlen).
  by rewrite (accept_fmap id snd).
Qed.

Lemma holds_list_length h l (qs : list loc) (rs : list ChatRecord) :
  holds_list h l qs rs → length qs = length rs.
Proof. intros [_ H]. by eapply length_mapM. Qed.

Lemma holds_list_insert h l0 items l (qs : list loc) (rs : list ChatRecord) :
  deref h l0 = None → l0 ≠ l →
  holds_list h l qs rs → holds_list (<[l0 := List items]> h) l qs rs.
Proof.
  intros Hl0 Hne [Hl Hqs]. split; [by rewrite lookup_insert_ne|].
  apply mapM_Some, derefs_insert_List; [done|]. by apply mapM_Some.
Qed.

(** What every statement about the filter starts from. *)
Lemma filter_golden_returns st ql (qs : list loc) (rs : list ChatRecord) target :
  holds_list (heap st) ql qs rs →
  ∃ g s out st',
    filter_golden ql target st = (Ok g, st') ∧
    stdout st' = stdout st ∧ requests st' = requests st ∧
    s = sort_desc (timestamp ∘ snd) (zip qs rs) ∧
    out = take (take_count target 0) (accept snd ∅ s) ∧
    heap st' = <[g := List out.*1]> (<[ql := List s.*1]> (heap st)) ∧
    heap st !! g = None ∧ g ≠ ql ∧
    holds_list (heap st') g out.*1 out.*2 ∧
    holds_list (heap st') ql s.*1 s.*2.
Proof.
  intros [Hl Hqs]. apply mapM_Some in Hqs.
  pose proof (filter_golden_run st ql qs rs target Hl Hqs) as Hrun.
  simpl in Hrun.
  set (g := fresh (dom (heap st))) in *.
  set (s := sort_desc (timestamp ∘ snd) (zip qs rs)) in *.
  set (out := take (take_count target 0) (accept snd ∅ s)) in *.
  assert (heap st !! g = None) as Hg
    by apply (not_elem_of_dom_1 (heap st)), is_fresh.
  assert (g ≠ ql) as Hne by congruence.
  assert (Forall (λ p, deref (heap st) p.1 = Some p.2) s) as Hs.
  { unfold s. rewrite sort_desc_Permutation.
    by apply (Forall2_zip (λ q r, deref (heap st) q = Some r)). }
  assert (Forall (λ p, deref (heap st) p.1 = Some p.2) out) as Hout.
  { eapply sublist_Forall; [|exact Hs]. unfold out.
    etrans; [apply sublist_take|apply accept_sublist]. }
  assert (∀ z, Forall (λ p, deref (heap st) p.1 = Some p.2) z →
            mapM (deref (<[g := List out.*1]> (<[ql := List s.*1]> (heap st))))
                 z.*1 = Some z.*2) as Hderefs.
  { intros z Hz. apply mapM_Some.
    apply derefs_insert_List.
    { unfold deref. by rewrite lookup_insert_ne, Hg. }
    apply derefs_insert_List; [by eapply deref_List|].
    by apply (Forall_unzip (λ q r, deref (heap st) q = Some r)). }
  exists g, s, out, (set_heap (<[g := List out.*1]> (<[ql := List s.*1]> (heap st))) st).
  repeat split; try done.
  - simpl. apply lookup_insert_eq.
  - by apply Hderefs.
  - simpl. rewrite lookup_insert_ne by done. apply lookup_insert_eq.
  - by apply Hderefs.
Qed.

(** ** Filter: size (C3) *)

(** For a target of at least one, the result holds the first [target] of
    the candidates that pass, or all of them when fewer pass. *)
Lemma filter_golden_length st queries (qs : list loc) (rs : list ChatRecord)
    target :
  holds_list (heap st) queries qs rs →
  (1 ≤ target)%Z →
  ∃ st' golden gs grs,
    filter_golden queries target st = (Ok golden, st') ∧
    holds_list (heap st') golden gs grs ∧
    grs = take (Z.to_nat target) (passing rs) ∧
    length grs = Z.to_nat target `min` length (passing rs).
Proof.
  intros Hq Htarget.
  destruct (filter_golden_returns st queries qs rs target Hq)
    as (g & s & out & st' & Hrun & _ & _ & -> & -> & _ & _ & _ & Hg & _).
  eexists st', g, _, _. split; [exact Hrun|]. split; [exact Hg|].
  rewrite golden_records_eq by by eapply holds_list_length.
  unfold golden_records, take_count.
  assert (Z.to_nat (Z.max 1 (target - Z.of_nat 0)) = Z.to_nat target) as ->
    by lia.
  split; [done|]. by rewrite length_take.
Qed.

(** ** Filter: uniqueness, quality, order *)

(** C5: no two examples of the result have the same normalized
    (stripped, lower-cased) question, whatever the candidates and the
    target. *)
Theorem filter_golden_unique_questions st queries (qs : list loc)
    (rs : list ChatRecord) target :
  holds_list (heap st) queries qs rs →
  ∃ st' golden gs grs,
    filter_golden queries target st = (Ok golden, st') ∧
    holds_list (heap st') golden gs grs ∧
    NoDup ((λ g, Text.lower (Text.strip (question g))) <$> grs).
Proof.
  intros Hq.
  destruct (filter_golden_returns st queries qs rs target Hq)
    as (g & s & out & st' & Hrun & _ & _ & -> & -> & _ & _ & _ & Hg & _).
  eexists st', g, _, _. split; [exact Hrun|]. split; [exact Hg|].
  rewrite <-list_fmap_compose.
  eapply sublist_NoDup;
    [apply (accept_NoDup (snd : loc * ChatRecord → ChatRecord) ∅)|].
  apply (fmap_sublist (normalized ∘ snd)), sublist_take.
Qed.

(** C7: every example of the result has a stripped question of at least
    15 characters, and its sql text is not one that contains "error"
    without containing "select" (both in any case). *)
Theorem filter_golden_quality st queries (qs : list loc)
    (rs : list ChatRecord) target :
  holds_list (heap st) queries qs rs →
  ∃ st' golden gs grs,
    filter_golden queries target st = (Ok golden, st') ∧
    holds_list (heap st') golden gs grs ∧
    Forall (λ g,
      15 ≤ length (Text.strip (question g)) ∧
      ¬ (Text.contains (lit "error") (Text.lower (sql g)) = true ∧
         Text.contains (lit "select") (Text.lower (sql g)) = false)) grs.
Proof.
  intros Hq.
  destruct (filter_golden_returns st queries qs rs target Hq)
    as (g & s & out & st' & Hrun & _ & _ & -> & -> & _ & _ & _ & Hg & _).
  eexists st', g, _, _. split; [exact Hrun|]. split; [exact Hg|].
  apply Forall_fmap.
  eapply sublist_Forall; [apply sublist_take|].
  eapply Forall_impl;
    [apply (accept_passes (snd : loc * ChatRecord → ChatRecord) ∅)|].
  intros [q r]. simpl. unfold passes, too_short, error_without_select, stripped.
  intros [Hlen Hsql]%andb_true_iff.
  apply negb_true_iff in Hlen, Hsql. apply Nat.ltb_ge in Hlen.
  split; [done|]. intros [He Hs]. by rewrite He, Hs in Hsql.
Qed.

(** C4: the result is in non-increasing order of timestamp, and the
    examples of one timestamp are in the order they had in the list before
    the sort: with their addresses, they are a subsequence of the
    candidates of that timestamp. *)
Theorem filter_golden_newest_first st queries (qs : list loc)
    (rs : list ChatRecord) target :
  holds_list (heap st) queries qs rs →
  ∃ st' golden gs grs,
    filter_golden queries target st = (Ok golden, st') ∧
    holds_list (heap st') golden gs grs ∧
    StronglySorted (λ a b, (timestamp b ≤ timestamp a)%Z) grs ∧
    ∀ t, filter (λ p, timestamp p.2 = t) (zip gs grs)
         `sublist_of` filter (λ p, timestamp p.2 = t) (zip qs rs).
Proof.
  intros Hq.
  destruct (filter_golden_returns st queries qs rs target Hq)
    as (g & s & out & st' & Hrun & _ & _ & Hs & Hout & _ & _ & _ & Hg & _).
  assert (out `sublist_of` s) as Hsub.
  { rewrite Hout. etrans; [apply sublist_take|apply accept_sublist]. }
  eexists st', g, _, _. split; [exact Hrun|]. split; [exact Hg|]. split.
  - apply (StronglySorted_fmap (snd : loc * ChatRecord → ChatRecord)
             (λ a b, (timestamp (snd b) ≤ timestamp (snd a))%Z)); [done|].
    eapply sublist_StronglySorted; [exact Hsub|].
    rewrite Hs. apply (sort_desc_sorted (timestamp ∘ snd)).
  - intros t. rewrite zip_fst_snd.
    pose proof (sort_desc_stable (timestamp ∘ snd) t (zip qs rs)) as Hst.
    change (filter (λ p : loc * ChatRecord, timestamp p.2 = t)
              (sort_desc (timestamp ∘ snd) (zip qs rs))
            = filter (λ p, timestamp p.2 = t) (zip qs rs)) in Hst.
    rewrite <-Hst, <-Hs. by apply sublist_filter_mono.
Qed.

(** ** Filter: a question is seen before its quality is checked (C9) *)

Lemma elem_of_zip_records (qs : list loc) (rs : list ChatRecord) r :
  length qs = length rs → r ∈ rs → ∃ q, (q, r) ∈ zip qs rs.
Proof.
  intros Hlen Hr. rewrite <-(snd_zip qs rs) in Hr by lia.
  apply list_elem_of_fmap in Hr as ([q r'] & -> & Hp). by exists q.
Qed.

(** C9: a record that fails a quality filter (its stripped question is
    shorter than 15 characters, or its sql has "error" and no "select")
    is not in the result, and neither is any older record of the same
    normalized question, whether or not that one passes the quality
    filters: the question was recorded as seen when the newer record was
    visited. *)
Theorem filter_golden_seen_before_quality st queries (qs : list loc)
    (rs : list ChatRecord) target (r : ChatRecord) :
  holds_list (heap st) queries qs rs →
  r ∈ rs →
  too_short r = true ∨ error_without_select r = true →
  ∃ st' golden gs grs,
    filter_golden queries target st = (Ok golden, st') ∧
    holds_list (heap st') golden gs grs ∧
    (r ∉ grs) ∧
    (∀ r', r' ∈ rs →
           normalized r' = normalized r →
           (timestamp r' < timestamp r)%Z →
           r' ∉ grs).
Proof.
  intros Hq Hr Hfails.
  destruct (filter_golden_returns st queries qs rs target Hq)
    as (g & s & out & st' & Hrun & _ & _ & Hs & Hout & _ & _ & _ & Hg & _).
  pose proof (holds_list_length _ _ _ _ Hq) as Hlen.
  assert (∀ p, p ∈ out → p ∈ accept snd ∅ s) as Hacc.
  { intros p Hp. rewrite Hout in Hp. by eapply elem_of_sublist, sublist_take. }
  eexists st', g, _, _. split; [exact Hrun|]. split; [exact Hg|]. split.
  - intros ([q r0] & -> & Hp%Hacc)%list_elem_of_fmap.
    pose proof (accept_passes (snd : loc * ChatRecord → ChatRecord) ∅ s) as Hall.
    rewrite Forall_forall in Hall. apply Hall in Hp. simpl in *.
    unfold passes in Hp. destruct Hfails as [Hf|Hf]; rewrite Hf in Hp;
      simpl in Hp; [done|]. by rewrite andb_false_r in Hp.
  - intros r' Hr' Hnorm Holder ([q' r0] & -> & Hp%Hacc)%list_elem_of_fmap.
    simpl in *.
    apply accept_first in Hp as (l1 & l2 & Hsplit & Hl1).
    destruct (elem_of_zip_records qs rs r Hlen Hr) as [q Hqr].
    assert ((q, r) ∈ s) as Hin by by rewrite Hs, sort_desc_Permutation.
    pose proof (sort_desc_sorted (timestamp ∘ snd) (zip qs rs)) as Hsorted.
    rewrite <-Hs, Hsplit in Hsorted. rewrite Hsplit in Hin.
    apply elem_of_app in Hin as [Hin|Hin].
    + apply Hl1 in Hin. simpl in Hin. congruence.
    + apply StronglySorted_app_1_r, StronglySorted_inv in Hsorted as [_ Hall].
      apply elem_of_cons in Hin as [Heq|Hin]; [simplify_eq; lia|].
      rewrite Forall_forall in Hall. apply Hall in Hin. simpl in Hin. lia.
Qed.

(** ** Filter: the caller's list is sorted in place (C10) *)

Lemma zip_sorted (qs : list loc) (rs : list ChatRecord) :
  StronglySorted (λ a b, (timestamp b ≤ timestamp a)%Z) rs →
  StronglySorted (λ a b : loc * ChatRecord,
                    ((timestamp ∘ snd) b ≤ (timestamp ∘ snd) a)%Z) (zip qs rs).
Proof.
  intros Hs. revert qs.
  induction Hs as [|r rs Hs IH Hall]; intros [|q qs]; simpl; try constructor.
  - apply IH.
  - rewrite Forall_forall in Hall. apply Forall_forall. intros [q' r'] Hp.
    apply elem_of_zip_r in Hp. simpl. by apply Hall.
Qed.

(** C10: after the call the caller's list object holds the same dicts
    rearranged most recent first, and is left as it was only when it was
    in that order already; no dict of the store is changed; the result is
    a new list object whose elements are addresses of the caller's list,
    the same dicts and not copies. *)
Theorem filter_golden_sorts_in_place st queries (qs : list loc)
    (rs : list ChatRecord) target :
  holds_list (heap st) queries qs rs →
  ∃ st' golden gs grs qs' rs',
    filter_golden queries target st = (Ok golden, st') ∧
    holds_list (heap st') golden gs grs ∧
    holds_list (heap st') queries qs' rs' ∧
    zip qs' rs' ≡ₚ zip qs rs ∧
    StronglySorted (λ a b, (timestamp b ≤ timestamp a)%Z) rs' ∧
    (qs' = qs ↔ StronglySorted (λ a b, (timestamp b ≤ timestamp a)%Z) rs) ∧
    (∀ q r, heap st !! q = Some (Dict r) → heap st' !! q = Some (Dict r)) ∧
    (∀ q, q ∈ gs → q ∈ qs') ∧
    golden ≠ queries ∧ heap st !! golden = None.
Proof.
  intros Hq.
  destruct (filter_golden_returns st queries qs rs target Hq)
    as (g & s & out & st' & Hrun & _ & _ & Hs & Hout & Hh & Hfresh & Hne
        & Hg & Hl).
  pose proof (holds_list_length _ _ _ _ Hq) as Hlen.
  assert (∀ q r, heap st !! q = Some (Dict r) → heap st' !! q = Some (Dict r))
    as Hframe.
  { intros q r Hqr. rewrite Hh.
    rewrite !lookup_insert_ne; [done| |]; intros <-; [|congruence].
    destruct Hq as [Hq _]. congruence. }
  assert (StronglySorted (λ a b, (timestamp b ≤ timestamp a)%Z) s.*2) as Hsorted.
  { apply (StronglySorted_fmap (snd : loc * ChatRecord → ChatRecord)
             (λ a b, (timestamp (snd b) ≤ timestamp (snd a))%Z)); [done|].
    rewrite Hs. apply (sort_desc_sorted (timestamp ∘ snd)). }
  eexists st', g, _, _, _, _.
  split; [exact Hrun|]. split; [exact Hg|]. split; [exact Hl|].
  split; [by rewrite zip_fst_snd, Hs, sort_desc_Permutation|].
  split; [exact Hsorted|]. split; [|split; [exact Hframe|split; [|done]]].
  - split.
    + intros Heq.
      assert (mapM (deref (heap st')) qs = Some rs) as Hrs.
      { apply mapM_Some. destruct Hq as [_ Hrs]. apply mapM_Some in Hrs.
        eapply Forall2_impl; [exact Hrs|]. intros q r.
        rewrite !deref_Some. apply Hframe. }
      destruct Hl as [_ Hrs']. rewrite Heq, Hrs in Hrs'.
      injection Hrs' as ->. exact Hsorted.
    + intros Hrs. rewrite Hs.
      rewrite (sort_desc_id (timestamp ∘ snd)) by by apply zip_sorted.
      apply fst_zip. lia.
  - intros q Hin. rewrite Hout in Hin.
    eapply elem_of_sublist; [exact Hin|]. apply fmap_sublist.
    etrans; [apply sublist_take|apply accept_sublist].
Qed.

(** ** Fetcher (C6) *)

Lemma truthy_present v : truthy v = true ↔ present v.
Proof.
  unfold truthy, present. destruct v as [[|c s]|].
  - split; [done|]. by intros (s' & [= <-] & Hs).
  - split; [|done]. intros _. by exists (c :: s).
  - split; [done|]. by intros (s & [=] & _).
Qed.

Lemma qualifies_present item :
  qualifies item = true
  ↔ present (item_sql item) ∧ present (item_question item) ∧
    present (item_insights item).
Proof.
  unfold qualifies. rewrite !andb_true_iff, !truthy_present. tauto.
Qed.

Lemma scanned_mono scan n m c items :
  scanned n scan c = Ok items → n ≤ m → scanned m scan c = Ok items.
Proof.
  revert m c items. induction n as [|n IH]; intros m c items; [done|].
  destruct m as [|m]; [lia|]. simpl. intros Hn Hle.
  destruct (scan c) as [response|]; [|done].
  destruct (truthy_key (LastEvaluatedKey response)); [|done].
  destruct (scanned n scan (LastEvaluatedKey response)) as [rest| |] eqn:Hrest;
    [|done..].
  by rewrite (IH m _ rest Hrest) by lia.
Qed.

Lemma deref_insert_Dict_ne h d r q :
  q ≠ d → deref (<[d := Dict r]> h) q = deref h q.
Proof. intros Hne. unfold deref. by rewrite lookup_insert_ne. Qed.

Lemma for_items_run ql (items : list Item) :
  ∀ st (acc : list loc) (accr : list ChatRecord),
    holds_list (heap st) ql acc accr →
    ∃ h' new,
      for_items ql items st = (Ok tt, set_heap h' st) ∧
      holds_list h' ql (acc ++ new)
        (accr ++ (new_record <$> filter (λ i, qualifies i = true) items)).
Proof.
  induction items as [|item items IH]; intros st acc accr Hq.
  - exists (heap st), []. rewrite set_heap_id, filter_nil, !app_nil_r. done.
  - simpl for_items. rewrite filter_cons.
    destruct (qualifies item) eqn:Hqual.
    + rewrite decide_True by done.
      set (d := fresh (dom (heap st))).
      set (r := new_record item).
      set (st2 := set_heap (<[ql := List (acc ++ [d])]>
                              (<[d := Dict r]> (heap st))) st).
      destruct Hq as [Hl Hacc]. apply mapM_Some in Hacc.
      assert (heap st !! d = None) as Hd
        by apply (not_elem_of_dom_1 (heap st)), is_fresh.
      assert (d ≠ ql) as Hne by congruence.
      assert (holds_list (heap st2) ql (acc ++ [d]) (accr ++ [r])) as Hq2.
      { split; [apply lookup_insert_eq|]. apply mapM_Some.
        subst st2. simpl heap. apply Forall2_app.
        - apply derefs_insert_List.
          { rewrite deref_insert_Dict_ne by done. by eapply deref_List. }
          eapply Forall2_impl; [exact Hacc|]. intros q r' Hqr.
          rewrite deref_insert_Dict_ne; [done|]. intros ->.
          apply deref_Some in Hqr. congruence.
        - constructor; [|constructor].
          apply deref_Some. rewrite lookup_insert_ne by done.
          apply lookup_insert_eq. }
      destruct (IH st2 _ _ Hq2) as (h' & new & Hrun & Hq').
      exists h', (d :: new).
      split.
      * rewrite (bind_Ok _ _ st tt st2); [exact Hrun|].
        assert (alloc (Dict r) st
                = (Ok d, set_heap (<[d := Dict r]> (heap st)) st)) as Ha by done.
        step Ha.
        rewrite (list_append_run _ ql acc d); [done|].
        simpl. by rewrite lookup_insert_ne.
      * rewrite fmap_cons. rewrite <-!(assoc_L (++)) in Hq'. exact Hq'.
    + rewrite decide_False by by rewrite not_true_iff_false.
      assert ((mret tt : M unit) st = (Ok tt, st)) as Hret by done.
      rewrite (bind_Ok _ _ _ _ _ Hret). by apply IH.
Qed.

Lemma scan_loop_run scan ql (fuel : nat) :
  ∀ c st (acc : list loc) (accr : list ChatRecord) items,
    scanned fuel scan c = Ok items →
    holds_list (heap st) ql acc accr →
    ∃ h' new,
      scan_loop fuel scan ql c st = (Ok tt, set_heap h' st) ∧
      holds_list h' ql (acc ++ new)
        (accr ++ (new_record <$> filter (λ i, qualifies i = true) items)).
Proof.
  induction fuel as [|fuel IH]; intros c st acc accr items Hs Hq; [done|].
  simpl in Hs. simpl scan_loop.
  destruct (scan c) as [response|]; [|done]. simpl call.
  assert ((mret response : M ScanResponse) st = (Ok response, st)) as Hret
    by done.
  step Hret.
  destruct (for_items_run ql (default [] (Items response)) st acc accr Hq)
    as (h1 & new1 & Hrun1 & Hq1).
  step Hrun1.
  destruct (truthy_key (LastEvaluatedKey response)); simpl negb; cbv iota.
  - destruct (scanned fuel scan (LastEvaluatedKey response)) as [rest| |]
      eqn:Hrest; [|done..].
    injection Hs as <-.
    destruct (IH _ (set_heap h1 st) _ _ rest Hrest Hq1)
      as (h' & new & Hrun & Hq').
    exists h', (new1 ++ new). split; [exact Hrun|].
    rewrite filter_app, fmap_app. by rewrite !(assoc_L (++)).
  - injection Hs as <-. exists h1, new1. done.
Qed.

Lemma scan_loop_raise scan ql (fuel : nat) :
  ∀ c st (acc : list loc) (accr : list ChatRecord) e,
    scanned fuel scan c = Raise e →
    holds_list (heap st) ql acc accr →
    ∃ h', scan_loop fuel scan ql c st = (Raise e, set_heap h' st).
Proof.
  induction fuel as [|fuel IH]; intros c st acc accr e Hs Hq; [done|].
  simpl in Hs. simpl scan_loop.
  destruct (scan c) as [response|what].
  - simpl call.
    assert ((mret response : M ScanResponse) st = (Ok response, st)) as Hret
      by done.
    step Hret.
    destruct (for_items_run ql (default [] (Items response)) st acc accr Hq)
      as (h1 & new1 & Hrun1 & Hq1).
    step Hrun1.
    destruct (truthy_key (LastEvaluatedKey response)); [|done].
    simpl negb; cbv iota.
    destruct (scanned fuel scan (LastEvaluatedKey response)) as [rest| |]
      eqn:Hrest; [done| |done].
    injection Hs as <-.
    destruct (IH _ (set_heap h1 st) _ _ _ Hrest Hq1) as (h' & Hrun).
    by exists h'.
  - injection Hs as <-. exists (heap st). by rewrite set_heap_id.
Qed.

Lemma print_run line st : print line st = (Ok tt, out_lines [line] st).
Proof. done. Qed.

Lemma scan_chat_history_run fuel w table_name st items :
  scanned fuel (table_scan w table_name) None = Ok items →
  ∃ st' queries qs,
    scan_chat_history fuel w table_name st = (Ok queries, st') ∧
    stdout st'
    = stdout st ++ [lit "Scanning DynamoDB table '" ++ table_name ++ lit "'..."] ∧
    requests st' = requests st ∧
    holds_list (heap st') queries qs
      (new_record <$> filter (λ i, qualifies i = true) items).
Proof.
  intros Hs. unfold scan_chat_history.
  step ((print_run _ st)).
  set (st1 := out_lines _ st).
  set (ql := fresh (dom (heap st1))).
  set (st2 := set_heap (<[ql := List []]> (heap st1)) st1).
  assert (alloc (List []) st1 = (Ok ql, st2)) as Ha by done.
  step Ha.
  assert (holds_list (heap st2) ql [] []) as Hq
    by (split; [apply lookup_insert_eq|done]).
  destruct (scan_loop_run _ ql fuel None st2 [] [] items Hs Hq)
    as (h' & new & Hrun & Hq').
  step Hrun.
  by exists (set_heap h' st2), ql, new.
Qed.

Lemma scan_chat_history_raise fuel w table_name st e :
  scanned fuel (table_scan w table_name) None = Raise e →
  ∃ st', scan_chat_history fuel w table_name st = (Raise e, st').
Proof.
  intros Hs. unfold scan_chat_history.
  step ((print_run _ st)).
  set (st1 := out_lines _ st).
  set (ql := fresh (dom (heap st1))).
  set (st2 := set_heap (<[ql := List []]> (heap st1)) st1).
  assert (alloc (List []) st1 = (Ok ql, st2)) as Ha by done.
  step Ha.
  assert (holds_list (heap st2) ql [] []) as Hq
    by (split; [apply lookup_insert_eq|done]).
  destruct (scan_loop_raise _ ql fuel None st2 [] [] e Hs Hq) as (h' & Hrun).
  rewrite (bind_Raise _ _ _ _ _ Hrun). by eexists.
Qed.

(** C6: when the cursors of the store end within the bound, the fetcher
    returns, in the order of the scan, one record for each scanned item
    whose [sql], [question] and [insights] are all present and not empty,
    and none for any other item. *)
Theorem scan_chat_history_qualifying fuel0 fuel w table_name st items :
  scanned fuel0 (table_scan w table_name) None = Ok items →
  fuel0 ≤ fuel →
  ∃ st' queries qs rs,
    scan_chat_history fuel w table_name st = (Ok queries, st') ∧
    holds_list (heap st') queries qs rs ∧
    rs = new_record <$> filter (λ i, qualifies i = true) items ∧
    ∀ item, item ∈ items →
      (qualifies item = true
       ↔ present (item_sql item) ∧ present (item_question item) ∧
         present (item_insights item)) ∧
      (new_record item ∈ rs ↔ qualifies item = true).
Proof.
  intros Hs Hle. apply (scanned_mono _ _ fuel) in Hs; [|done].
  destruct (scan_chat_history_run fuel w table_name st items Hs)
    as (st' & ql & qs & Hrun & _ & _ & Hq).
  eexists st', ql, qs, _. split; [exact Hrun|]. split; [exact Hq|].
  split; [done|]. intros item Hin. split; [apply qualifies_present|].
  rewrite list_elem_of_fmap. split.
  - intros (item' & Heq & [Hq' _]%list_elem_of_filter).
    apply qualifies_present in Hq' as ((s & Hs1 & ?) & (q & Hq1 & ?) & (i & Hi1 & ?)).
    apply (f_equal sql) in Heq as Hsql.
    apply (f_equal question) in Heq as Hquestion.
    apply (f_equal insights) in Heq as Hinsights.
    simpl in Hsql, Hquestion, Hinsights.
    rewrite Hs1 in Hsql. rewrite Hq1 in Hquestion. rewrite Hi1 in Hinsights.
    simpl in Hsql, Hquestion, Hinsights.
    apply qualifies_present. unfold present.
    destruct (item_sql item) as [s'|], (item_question item) as [q'|],
      (item_insights item) as [i'|]; simpl in *; simplify_eq.
    eauto 10.
  - intros Hq'. exists item. split; [done|]. by apply list_elem_of_filter.
Qed.

(** ** Publisher *)

Lemma comprehension_run row st golden (gs : list loc) (grs : list ChatRecord) :
  holds_list (heap st) golden gs grs →
  comprehension row golden st = (Ok (row <$> grs), st).
Proof.
  intros [Hl Hgs]. apply mapM_Some in Hgs. unfold comprehension.
  step ((read_list_run _ _ _ Hl)).
  by apply mapM_read_dict_run.
Qed.

Lemma print_sample_run st golden (gs : list loc) (grs : list ChatRecord) i :
  holds_list (heap st) golden gs grs → i < length gs →
  ∃ lines, print_sample golden i st = (Ok tt, out_lines lines st).
Proof.
  intros [Hl Hgs] Hi. apply mapM_Some in Hgs.
  destruct (lookup_lt_is_Some_2 gs i Hi) as [q Hq].
  destruct (Forall2_lookup_l _ _ _ _ _ Hgs Hq) as (r & _ & Hr).
  unfold print_sample.
  step ((list_get_run st _ _ _ _ Hl Hq)).
  step ((read_dict_run st _ _ Hr)).
  step ((print_run _ _)).
  step ((list_get_run (out_lines _ st) _ _ _ _ Hl Hq)).
  step ((read_dict_run (out_lines _ st) _ _ Hr)).
  step ((print_run _ _)).
  rewrite (bind_Ok _ _ _ _ _
             (list_get_run (out_lines _ (out_lines _ st)) _ _ _ _ Hl Hq)).
  rewrite (bind_Ok _ _ _ _ _
             (read_dict_run (out_lines _ (out_lines _ st)) _ _ Hr)).
  rewrite print_run. unfold out_lines. simpl. rewrite <-!(assoc_L (++)).
  by eexists.
Qed.

Lemma samples_run golden (gs : list loc) (grs : list ChatRecord)
    (indices : list nat) :
  ∀ st,
    holds_list (heap st) golden gs grs →
    Forall (λ i, i < length gs) indices →
    ∃ us lines,
      mapM (print_sample golden) indices st = (Ok us, out_lines lines st).
Proof.
  induction indices as [|i indices IH]; intros st Hg Hall.
  - exists [], []. unfold out_lines. rewrite app_nil_r. by destruct st.
  - apply Forall_cons in Hall as [Hi Hall].
    destruct (print_sample_run st golden gs grs i Hg Hi) as (l1 & Hrun1).
    destruct (IH (out_lines l1 st) Hg Hall) as (us & l2 & Hrun2).
    exists (tt :: us), (l1 ++ l2). simpl mapM.
    step Hrun1. step Hrun2.
    unfold out_lines. simpl. by rewrite (assoc_L (++)).
Qed.

Lemma fetched_Ok fuel w rs :
  fetched fuel w = Ok rs →
  ∃ items, scanned fuel (table_scan w (CHAT_HISTORY_TABLE w)) None = Ok items ∧
           rs = new_record <$> filter (λ i, qualifies i = true) items.
Proof.
  unfold fetched. destruct (scanned _ _ _) as [items| |]; [|done..].
  intros [= <-]. by exists items.
Qed.

Lemma fetched_Raise fuel w e :
  fetched fuel w = Raise e →
  scanned fuel (table_scan w (CHAT_HISTORY_TABLE w)) None = Raise e.
Proof.
  unfold fetched. destruct (scanned _ _ _) as [items| |]; [done| |done].
  by intros [= <-].
Qed.

Lemma main_fetch_raises fuel w st e :
  fetched fuel w = Raise e → ∃ st', main fuel w st = (Raise e, st').
Proof.
  intros Hs%fetched_Raise.
  destruct (scan_chat_history_raise fuel w _ st e Hs) as (st' & Hrun).
  unfold main. rewrite (bind_Raise _ _ _ _ _ Hrun). by eexists.
Qed.

Lemma main_no_queries fuel w st :
  fetched fuel w = Ok [] →
  ∃ st', main fuel w st = (Raise (SystemExit 1), st') ∧
         last (stdout st')
         = Some (lit "No queries found. Use the analytics chat in the dashboard first.").
Proof.
  intros (items & Hs & Hrs)%fetched_Ok.
  destruct (scan_chat_history_run fuel w _ st items Hs)
    as (st1 & ql & qs & Hrun & _ & _ & Hq).
  rewrite <-Hrs in Hq.
  pose proof (holds_list_length _ _ _ _ Hq) as Hlen.
  destruct qs; [|done]. destruct Hq as [Hl _].
  unfold main. rewrite (bind_Ok _ _ _ _ _ Hrun).
  step ((len_run st1 _ _ Hl)).
  step ((print_run _ _)).
  step ((len_run (out_lines _ st1) _ _ Hl)).
  simpl length. simpl Nat.eqb. cbv iota.
  eexists. split; [reflexivity|]. simpl. by rewrite last_snoc.
Qed.

(** [main] from the fetch to the upload. *)
Lemma main_run fuel w st rs :
  fetched fuel w = Ok rs → rs ≠ [] →
  let grs := golden_records rs TARGET_COUNT in
  (grs = [] →
   ∃ st', main fuel w st = (Raise (SystemExit 1), st') ∧
          requests st' = requests st ∧
          last (stdout st') = Some (lit "No examples passed quality filters.")) ∧
  (grs ≠ [] →
   ∃ st1,
     requests st1 = requests st ∧
     main fuel w st
     = (upload w (input_row <$> grs) (output_row <$> grs) (metadata_row <$> grs);;
        print (lit "View in Phoenix UI: " ++ PHOENIX_URL w);;
        print (lit "Navigate to: Datasets > " ++ DATASET_NAME)) st1).
Proof.
  intros (items & Hs & Hrs)%fetched_Ok Hne grs.
  destruct (scan_chat_history_run fuel w _ st items Hs)
    as (st1 & ql & qs & Hrun & _ & Hreq1 & Hq).
  rewrite <-Hrs in Hq.
  pose proof (holds_list_length _ _ _ _ Hq) as Hlen.
  assert ((length qs =? 0) = false) as Hn0.
  { apply Nat.eqb_neq. rewrite Hlen. by destruct rs. }
  pose proof Hq as [Hl _].
  unfold main. rewrite (bind_Ok _ _ _ _ _ Hrun).
  step ((len_run st1 _ _ Hl)).
  step ((print_run _ _)).
  set (st1a := out_lines _ st1).
  step ((len_run st1a _ _ Hl)).
  rewrite Hn0.
  assert ((mret tt : M unit) st1a = (Ok tt, st1a)) as Hret by done.
  step Hret.
  destruct (filter_golden_returns st1a ql qs rs TARGET_COUNT Hq)
    as (g & s & out & st2 & Hfilter & _ & Hreq2 & -> & -> & _ & _ & _ & Hg & _).
  rewrite golden_records_eq in Hg by done. fold grs in Hg.
  set (gs := (take _ _).*1) in Hg.
  step Hfilter.
  pose proof (holds_list_length _ _ _ _ Hg) as Hglen.
  pose proof Hg as [Hgl _].
  step ((len_run st2 _ _ Hgl)).
  step ((print_run _ _)).
  set (st2a := out_lines _ st2).
  step ((len_run st2a _ _ Hgl)).
  split.
  - intros Hnil. rewrite Hnil in Hglen. destruct gs; [|done].
    simpl length. simpl Nat.eqb. cbv iota.
    eexists. split; [reflexivity|]. split.
    + simpl. by rewrite Hreq2.
    + simpl. by rewrite last_snoc.
  - intros Hgrs.
    assert ((length gs =? 0) = false) as ->.
    { apply Nat.eqb_neq. rewrite Hglen. by destruct grs. }
    assert ((mret tt : M unit) st2a = (Ok tt, st2a)) as Hret2 by done.
    step Hret2.
    step ((print_run _ _)).
    set (st2b := out_lines _ st2a).
    step ((len_run st2b _ _ Hgl)).
    destruct (samples_run g gs grs (seq 0 (3 `min` length gs)) st2b Hg)
      as (us & lines & Hsamples).
    { apply Forall_forall. intros i Hi%elem_of_seq. lia. }
    step Hsamples.
    step ((print_run _ _)).
    set (st3 := out_lines _ (out_lines lines st2b)).
    step ((comprehension_run input_row st3 _ _ _ Hg)).
    step ((comprehension_run output_row st3 _ _ _ Hg)).
    step ((comprehension_run metadata_row st3 _ _ _ Hg)).
    step ((len_run st3 _ _ Hgl)).
    step ((print_run _ _)).
    eexists. split; [|reflexivity]. simpl. by rewrite Hreq2.
Qed.

(** The four ways the [try] statement ends. *)
Lemma upload_returns w inputs outputs metadata st :
  let args := {| arg_name := DATASET_NAME;
                 arg_dataset_description := DATASET_DESCRIPTION;
                 arg_inputs := inputs; arg_outputs := outputs;
                 arg_metadata := metadata |} in
  create_dataset w args = Returns tt →
  ∃ st', upload w inputs outputs metadata st = (Ok tt, st') ∧
         requests st' = requests st ++ [CreateDataset args] ∧
         stdout st'
         = stdout st ++ [Text.nl ++ lit "Dataset created successfully!"].
Proof.
  intros args Hc. unfold upload, try_except. fold args.
  unfold mbind, M_bind, log. rewrite Hc. simpl. by eexists.
Qed.

Lemma upload_verified w inputs outputs metadata st e es m ms :
  let args := {| arg_name := DATASET_NAME;
                 arg_dataset_description := DATASET_DESCRIPTION;
                 arg_inputs := inputs; arg_outputs := outputs;
                 arg_metadata := metadata |} in
  create_dataset w args = Raises e →
  verification w = Returns es →
  matching es = m :: ms →
  ∃ st', upload w inputs outputs metadata st = (Ok tt, st') ∧
         requests st'
         = requests st ++ [CreateDataset args;
                           HttpPost (PHOENIX_URL w ++ lit "/graphql") GRAPHQL_QUERY] ∧
         stdout st'
         = stdout st ++ [Text.nl ++ lit "Dataset created successfully! ("
                         ++ Text.str (exampleCount (node m)) ++ lit " examples)"].
Proof.
  intros args Hc Hv Hm. unfold verification in Hv.
  unfold upload, try_except. fold args.
  unfold mbind, M_bind, log. rewrite Hc. simpl.
  unfold verify, mbind, M_bind, log. simpl.
  destruct (graphql_post w _ _) as [body|e0]; [|done]. simpl.
  rewrite Hv. simpl. fold (matching es). rewrite Hm. simpl.
  eexists. split; [reflexivity|]. simpl. by rewrite <-(assoc_L (++)).
Qed.

Lemma upload_unconfirmed w inputs outputs metadata st e es :
  let args := {| arg_name := DATASET_NAME;
                 arg_dataset_description := DATASET_DESCRIPTION;
                 arg_inputs := inputs; arg_outputs := outputs;
                 arg_metadata := metadata |} in
  create_dataset w args = Raises e →
  verification w = Returns es →
  matching es = [] →
  ∃ st', upload w inputs outputs metadata st = (Raise (SystemExit 1), st') ∧
         requests st'
         = requests st ++ [CreateDataset args;
                           HttpPost (PHOENIX_URL w ++ lit "/graphql") GRAPHQL_QUERY] ∧
         stdout st'
         = stdout st ++ [Text.nl ++ lit "Warning: Upload may have failed - " ++ e].
Proof.
  intros args Hc Hv Hm. unfold verification in Hv.
  unfold upload, try_except. fold args.
  unfold mbind, M_bind, log. rewrite Hc. simpl.
  unfold verify, mbind, M_bind, log. simpl.
  destruct (graphql_post w _ _) as [body|e0]; [|done]. simpl.
  rewrite Hv. simpl. fold (matching es). rewrite Hm. simpl.
  eexists. split; [reflexivity|]. simpl. by rewrite <-(assoc_L (++)).
Qed.

Lemma upload_verification_raises w inputs outputs metadata st e e' :
  let args := {| arg_name := DATASET_NAME;
                 arg_dataset_description := DATASET_DESCRIPTION;
                 arg_inputs := inputs; arg_outputs := outputs;
                 arg_metadata := metadata |} in
  create_dataset w args = Raises e →
  verification w = Raises e' →
  ∃ st', upload w inputs outputs metadata st = (Raise (Exception e'), st') ∧
         requests st'
         = requests st ++ [CreateDataset args;
                           HttpPost (PHOENIX_URL w ++ lit "/graphql") GRAPHQL_QUERY] ∧
         stdout st' = stdout st.
Proof.
  intros args Hc Hv. unfold verification in Hv.
  unfold upload, try_except. fold args.
  unfold mbind, M_bind, log. rewrite Hc. simpl.
  unfold verify, mbind, M_bind, log. simpl.
  destruct (graphql_post w _ _) as [body|e0]; simpl.
  - rewrite Hv. simpl.
    eexists. split; [reflexivity|]. simpl. by rewrite <-(assoc_L (++)).
  - injection Hv as ->.
    eexists. split; [reflexivity|]. simpl. by rewrite <-(assoc_L (++)).
Qed.

(** Whatever happens next, the first request of the [try] statement is
    the upload. *)
Lemma upload_requests w inputs outputs metadata st :
  ∃ r st' rest,
    upload w inputs outputs metadata st = (r, st') ∧
    requests st'
    = requests st ++ CreateDataset {| arg_name := DATASET_NAME;
                         arg_dataset_description := DATASET_DESCRIPTION;
                         arg_inputs := inputs; arg_outputs := outputs;
                         arg_metadata := metadata |} :: rest.
Proof.
  set (args := {| arg_name := DATASET_NAME; arg_inputs := inputs |}).
  destruct (create_dataset w args) as [[]|e] eqn:Hc.
  { destruct (upload_returns w inputs outputs metadata st Hc)
      as (st' & Hrun & Hreq & _). by exists (Ok tt), st', []. }
  destruct (verification w) as [es|e'] eqn:Hv.
  - destruct (matching es) as [|m ms] eqn:Hm.
    + destruct (upload_unconfirmed w inputs outputs metadata st e es Hc Hv Hm)
        as (st' & Hrun & Hreq & _). by eexists _, st', _.
    + destruct (upload_verified w inputs outputs metadata st e es m ms Hc Hv Hm)
        as (st' & Hrun & Hreq & _). by eexists _, st', _.
  - destruct (upload_verification_raises w inputs outputs metadata st e e' Hc Hv)
      as (st' & Hrun & Hreq & _). by eexists _, st', _.
Qed.

(** The two last lines of [main]. *)
Lemma closing_lines (m : M unit) l1 l2 st st' :
  m st = (Ok tt, st') →
  (m;; print l1;; print l2) st = (Ok tt, out_lines [l1; l2] st').
Proof.
  intros H. rewrite (bind_Ok _ _ _ _ _ H).
  rewrite (bind_Ok _ _ _ _ _ (print_run _ _)). rewrite print_run.
  unfold out_lines. simpl. by rewrite <-(assoc_L (++)).
Qed.

(** ** The process *)

Lemma run_main fuel w r st :
  import_error w = None → main fuel w initial = (r, st) →
  run fuel w = (exit_status r, st).
Proof. intros Hi Hm. unfold run, script. by rewrite Hi, Hm. Qed.

Lemma golden_records_nil target : golden_records [] target = [].
Proof. unfold golden_records, passing. simpl. apply take_nil. Qed.

(** The end of a run that reaches the upload. *)
Lemma run_upload fuel w rs :
  import_error w = None →
  fetched fuel w = Ok rs →
  golden_records rs TARGET_COUNT ≠ [] →
  let args := payload (golden_records rs TARGET_COUNT) in
  let url := PHOENIX_URL w ++ lit "/graphql" in
  (create_dataset w args = Returns tt →
   ∃ st, run fuel w = (Some 0%Z, st) ∧ requests st = [CreateDataset args]) ∧
  (∀ e es m ms,
     create_dataset w args = Raises e →
     verification w = Returns es →
     matching es = m :: ms →
     ∃ st before,
       run fuel w = (Some 0%Z, st) ∧
       requests st = [CreateDataset args; HttpPost url GRAPHQL_QUERY] ∧
       stdout st
       = before ++ [Text.nl ++ lit "Dataset created successfully! ("
                      ++ Text.str (exampleCount (node m)) ++ lit " examples)";
                    lit "View in Phoenix UI: " ++ PHOENIX_URL w;
                    lit "Navigate to: Datasets > " ++ DATASET_NAME]) ∧
  (∀ e es,
     create_dataset w args = Raises e →
     verification w = Returns es →
     matching es = [] →
     ∃ st, run fuel w = (Some 1%Z, st) ∧
           requests st = [CreateDataset args; HttpPost url GRAPHQL_QUERY]) ∧
  (∀ e e',
     create_dataset w args = Raises e →
     verification w = Raises e' →
     ∃ st, run fuel w = (Some 1%Z, st) ∧
           requests st = [CreateDataset args; HttpPost url GRAPHQL_QUERY]).
Proof.
  intros Hi Hf Hg args url.
  assert (rs ≠ []) as Hrs by (intros ->; by rewrite golden_records_nil in Hg).
  destruct (main_run fuel w initial rs Hf Hrs) as [_ Hup].
  destruct (Hup Hg) as (st1 & Hreq & Hmain). clear Hup.
  simpl in Hreq. split; [|split; [|split]].
  - intros Hc.
    destruct (upload_returns w _ _ _ st1 Hc) as (st' & Hrun & Hreq' & _).
    rewrite (closing_lines _ _ _ _ _ Hrun) in Hmain.
    eexists. split; [by apply (run_main _ _ _ _ Hi Hmain)|].
    simpl. by rewrite Hreq', Hreq.
  - intros e es m ms Hc Hv Hm.
    destruct (upload_verified w _ _ _ st1 e es m ms Hc Hv Hm)
      as (st' & Hrun & Hreq' & Hout).
    rewrite (closing_lines _ _ _ _ _ Hrun) in Hmain.
    eexists _, (stdout st1). split; [by apply (run_main _ _ _ _ Hi Hmain)|].
    simpl. rewrite Hreq', Hreq, Hout. by rewrite <-(assoc_L (++)).
  - intros e es Hc Hv Hm.
    destruct (upload_unconfirmed w _ _ _ st1 e es Hc Hv Hm)
      as (st' & Hrun & Hreq' & _).
    rewrite (bind_Raise _ _ _ _ _ Hrun) in Hmain.
    exists st'. split; [by apply (run_main _ _ _ _ Hi Hmain)|].
    by rewrite Hreq', Hreq.
  - intros e e' Hc Hv.
    destruct (upload_verification_raises w _ _ _ st1 e e' Hc Hv)
      as (st' & Hrun & Hreq' & _).
    rewrite (bind_Raise _ _ _ _ _ Hrun) in Hmain.
    exists st'. split; [by apply (run_main _ _ _ _ Hi Hmain)|].
    by rewrite Hreq', Hreq.
Qed.

(** C1: in a run that reaches the upload, when the call that creates the
    dataset raises an exception, the handler posts the dataset query to
    the service's GraphQL endpoint; and when some dataset of the answer
    has the fixed name, the run prints the success line with the example
    count of the first such dataset, as the service gave it, then its two
    closing lines, and the process exits with status 0. *)
Theorem upload_verified_by_lookup fuel w rs e :
  import_error w = None →
  fetched fuel w = Ok rs →
  golden_records rs TARGET_COUNT ≠ [] →
  create_dataset w (payload (golden_records rs TARGET_COUNT)) = Raises e →
  ∃ status st,
    run fuel w = (status, st) ∧
    requests st
    = [CreateDataset (payload (golden_records rs TARGET_COUNT));
       HttpPost (PHOENIX_URL w ++ lit "/graphql") GRAPHQL_QUERY] ∧
    ∀ body es d,
      graphql_post w (PHOENIX_URL w ++ lit "/graphql") GRAPHQL_QUERY
      = Returns body →
      edges_of body = Returns es →
      d ∈ es →
      name (node d) = DATASET_NAME →
      ∃ m ms before,
        status = Some 0%Z ∧
        filter (λ d, name (node d) = DATASET_NAME) es = m :: ms ∧
        stdout st
        = before ++ [Text.nl ++ lit "Dataset created successfully! ("
                       ++ Text.str (exampleCount (node m)) ++ lit " examples)";
                     lit "View in Phoenix UI: " ++ PHOENIX_URL w;
                     lit "Navigate to: Datasets > " ++ DATASET_NAME].
Proof.
  intros Hi Hf Hg Hc.
  destruct (run_upload fuel w rs Hi Hf Hg)
    as (_ & Hverified & Hunconfirmed & Hraises).
  assert (∀ body es,
    graphql_post w (PHOENIX_URL w ++ lit "/graphql") GRAPHQL_QUERY
    = Returns body →
    edges_of body = Returns es → verification w = Returns es) as Hver.
  { intros body es Hp He. unfold verification. by rewrite Hp. }
  destruct (verification w) as [es|e'] eqn:Hv.
  - destruct (matching es) as [|m ms] eqn:Hm.
    + destruct (Hunconfirmed e es Hc eq_refl Hm) as (st & Hrun & Hreq).
      exists (Some 1%Z), st. split; [done|]. split; [done|].
      intros body es0 d Hp He Hd Hname.
      pose proof (Hver body es0 Hp He) as [= <-].
      assert (d ∈ matching es) as Hin by by apply list_elem_of_filter.
      rewrite Hm in Hin. by apply elem_of_nil in Hin.
    + destruct (Hverified e es m ms Hc eq_refl Hm)
        as (st & before & Hrun & Hreq & Hout).
      exists (Some 0%Z), st. split; [done|]. split; [done|].
      intros body es0 d Hp He _ _.
      pose proof (Hver body es0 Hp He) as [= <-]. by exists m, ms, before.
  - destruct (Hraises e e' Hc eq_refl) as (st & Hrun & Hreq).
    exists (Some 1%Z), st. split; [done|]. split; [done|].
    intros body es0 d Hp He. by pose proof (Hver body es0 Hp He).
Qed.

Lemma scanned_Raise fuel scan c e :
  scanned fuel scan c = Raise e → ∃ what, e = Exception what.
Proof.
  revert c. induction fuel as [|fuel IH]; intros c; [done|]. simpl.
  destruct (scan c) as [response|what]; [|intros [= <-]; by eexists].
  destruct (truthy_key (LastEvaluatedKey response)); [|done].
  destruct (scanned fuel scan (LastEvaluatedKey response)) eqn:Hrest;
    [done| |done].
  intros [= <-]. by eapply IH.
Qed.

(** C2, as the code has it: the process exits with status 0 when the
    upload returns, or raises and the verification finds a dataset of the
    fixed name; it exits with status 1 in every other case: an import of
    line 18 or 19 fails, the scan of the store raises, the fetch yields no
    record, no record passes the filter, or the upload raises and the
    verification either raises too (its request, or the reading of an
    answer with a null level) or finds no dataset of the fixed name. *)
Theorem exit_status_cases fuel w :
  fetched fuel w ≠ OutOfFuel →
  ∃ code st,
    run fuel w = (Some code, st) ∧
    (code = 0 ∨ code = 1)%Z ∧
    (code = 1%Z ↔
       is_Some (import_error w) ∨
       (∃ what, fetched fuel w = Raise (Exception what)) ∨
       fetched fuel w = Ok [] ∨
       (∃ rs, fetched fuel w = Ok rs ∧ golden_records rs TARGET_COUNT = []) ∨
       (∃ rs e,
          fetched fuel w = Ok rs ∧
          create_dataset w (payload (golden_records rs TARGET_COUNT)) = Raises e ∧
          ((∃ e', verification w = Raises e') ∨
           (∃ es, verification w = Returns es ∧
                  filter (λ d, name (node d) = DATASET_NAME) es = [])))).
Proof.
  intros Hfuel.
  destruct (import_error w) as [msg|] eqn:Hi.
  { eexists 1%Z, _. split; [unfold run, script; by rewrite Hi|].
    split; [by right|]. split; [|done]. intros _. left. by eexists. }
  destruct (fetched fuel w) as [rs|e|] eqn:Hf; [| |done].
  2:{ pose proof (fetched_Raise _ _ _ Hf) as Hs.
      destruct (scanned_Raise _ _ _ _ Hs) as [what ->].
      destruct (main_fetch_raises fuel w initial _ Hf) as (st & Hmain).
      exists 1%Z, st. split; [by apply (run_main _ _ _ _ Hi Hmain)|].
      split; [by right|]. split; [|done]. intros _. right. left. by eexists. }
  destruct rs as [|r rs'].
  { destruct (main_no_queries fuel w initial Hf) as (st & Hmain & _).
    exists 1%Z, st. split; [by apply (run_main _ _ _ _ Hi Hmain)|].
    split; [by right|]. split; [|done]. intros _. do 2 right. by left. }
  set (rs := r :: rs') in *.
  destruct (main_run fuel w initial rs Hf ltac:(done)) as [Hnone Hup].
  destruct (golden_records rs TARGET_COUNT) as [|g grs'] eqn:Hg.
  { destruct (Hnone eq_refl) as (st & Hmain & _).
    exists 1%Z, st. split; [by apply (run_main _ _ _ _ Hi Hmain)|].
    split; [by right|]. split; [|done]. intros _. do 3 right. left.
    by exists rs. }
  clear Hnone Hup.
  assert (golden_records rs TARGET_COUNT ≠ []) as Hne by by rewrite Hg.
  destruct (run_upload fuel w rs Hi Hf Hne)
    as (Hreturns & Hverified & Hunconfirmed & Hraises).
  rewrite Hg in Hreturns, Hverified, Hunconfirmed, Hraises.
  assert (∀ P : text → Prop,
    (∀ e, create_dataset w (payload (g :: grs')) = Raises e → ¬ P e) →
    ¬ (is_Some (None : option text) ∨
       (∃ what, Ok rs = Raise (Exception what)) ∨
       Ok rs = Ok [] ∨
       (∃ rs0, Ok rs = Ok rs0 ∧ golden_records rs0 TARGET_COUNT = []) ∨
       (∃ rs0 e,
          Ok rs = Ok rs0 ∧
          create_dataset w (payload (golden_records rs0 TARGET_COUNT))
          = Raises e ∧ P e))) as Hzero.
  { intros P HP [[? [=]]|[[? [=]]|[[=]|[(rs0 & [= <-] & Hg0)|H]]]].
    - by rewrite Hg in Hg0.
    - destruct H as (rs0 & e & [= <-] & Hc & HPe). rewrite Hg in Hc.
      by apply (HP e). }
  destruct (create_dataset w (payload (g :: grs'))) as [[]|e] eqn:Hc.
  { destruct (Hreturns eq_refl) as (st & Hrun & _).
    exists 0%Z, st. split; [done|]. split; [by left|]. split; [done|].
    intros H. exfalso. revert H. apply Hzero. by intros e0 [=]. }
  destruct (verification w) as [es|e'] eqn:Hv.
  - destruct (matching es) as [|m ms] eqn:Hm.
    + destruct (Hunconfirmed e es eq_refl eq_refl Hm) as (st & Hrun & _).
      exists 1%Z, st. split; [done|]. split; [by right|]. split; [|done].
      intros _. do 4 right. exists rs, e. rewrite Hg. split; [done|].
      split; [done|]. right. by exists es.
    + destruct (Hverified e es m ms eq_refl eq_refl Hm)
        as (st & before & Hrun & _).
      exists 0%Z, st. split; [done|]. split; [by left|]. split; [done|].
      intros H. exfalso. revert H. apply Hzero.
      intros e0 _ [[e1 [=]]|(es0 & [= <-] & Hm0)].
      fold (matching es) in Hm0. congruence.
  - destruct (Hraises e e' eq_refl eq_refl) as (st & Hrun & _).
    exists 1%Z, st. split; [done|]. split; [by right|]. split; [|done].
    intros _. do 4 right. exists rs, e. rewrite Hg. split; [done|].
    split; [done|]. left. by exists e'.
Qed.

(** C8: in a run that reaches the upload, the first request is the
    creation of the dataset under the fixed name, and its [inputs],
    [outputs] and [metadata] have one row for each accepted example, at
    the example's index: the input row holds the question and nothing
    else, the output row the sql and the insights, the metadata row the
    fixed source tag, the user email, the session id and the timestamp
    printed as a string. *)
Theorem upload_rows_aligned fuel w rs :
  import_error w = None →
  fetched fuel w = Ok rs →
  golden_records rs TARGET_COUNT ≠ [] →
  ∃ status st args rest,
    run fuel w = (status, st) ∧
    requests st = CreateDataset args :: rest ∧
    arg_name args = DATASET_NAME ∧
    length (arg_inputs args) = length (golden_records rs TARGET_COUNT) ∧
    length (arg_outputs args) = length (golden_records rs TARGET_COUNT) ∧
    length (arg_metadata args) = length (golden_records rs TARGET_COUNT) ∧
    ∀ i g, golden_records rs TARGET_COUNT !! i = Some g →
      arg_inputs args !! i = Some {[ "question" := question g ]} ∧
      arg_outputs args !! i
      = Some (<[ "sql" := sql g ]> {[ "insights" := insights g ]}) ∧
      arg_metadata args !! i
      = Some (<[ "source" := lit "dynamodb_chat_history" ]>
              (<[ "user_email" := user_email g ]>
              (<[ "session_id" := session_id g ]>
              {[ "timestamp" := Text.str (timestamp g) ]}))).
Proof.
  intros Hi Hf Hg.
  assert (rs ≠ []) as Hrs by (intros ->; by rewrite golden_records_nil in Hg).
  destruct (main_run fuel w initial rs Hf Hrs) as [_ Hup].
  destruct (Hup Hg) as (st1 & Hreq & Hmain). clear Hup. simpl in Hreq.
  set (grs := golden_records rs TARGET_COUNT) in *.
  destruct (upload_requests w (input_row <$> grs) (output_row <$> grs)
              (metadata_row <$> grs) st1) as (r & st' & rest & Hrun & Hreq').
  rewrite Hreq in Hreq'. simpl in Hreq'.
  assert (∃ r' st'', main fuel w initial = (r', st'') ∧
                     requests st'' = requests st') as (r' & st'' & Hmain' & Heq).
  { destruct r as [[]|e|].
    - rewrite (closing_lines _ _ _ _ _ Hrun) in Hmain. by eexists _, _.
    - rewrite (bind_Raise _ _ _ _ _ Hrun) in Hmain. by eexists _, _.
    - rewrite (bind_OutOfFuel _ _ _ _ Hrun) in Hmain. by eexists _, _. }
  eexists (exit_status r'), st'', _, rest.
  split; [by apply run_main|]. split; [by rewrite Heq|].
  split; [done|]. simpl. rewrite !length_fmap. do 3 (split; [done|]).
  intros i g Hig. by rewrite !list_lookup_fmap, Hig.
Qed.


(** * Further properties *)

(** ** Fetcher: what its records are *)

(** Every record of the fetcher's result has a question, an sql text and
    insights that are not empty, and the result is no longer than the
    scan. *)
Theorem scan_chat_history_fields_not_empty fuel w table_name st items :
  scanned fuel (table_scan w table_name) None = Ok items →
  ∃ st' queries qs rs,
    scan_chat_history fuel w table_name st = (Ok queries, st') ∧
    holds_list (heap st') queries qs rs ∧
    length rs ≤ length items ∧
    Forall (λ r, question r ≠ lit "" ∧ sql r ≠ lit "" ∧ insights r ≠ lit "") rs.
Proof.
  intros Hs.
  destruct (scan_chat_history_run fuel w table_name st items Hs)
    as (st' & ql & qs & Hrun & _ & _ & Hq).
  eexists st', ql, qs, _. split; [exact Hrun|]. split; [exact Hq|]. split.
  - rewrite length_fmap. apply length_filter.
  - apply Forall_fmap, Forall_forall.
    intros item [Hqual _]%list_elem_of_filter.
    apply qualifies_present
      in Hqual as ((s & Hs1 & ?) & (q & Hq1 & ?) & (i & Hi1 & ?)).
    simpl. by rewrite Hs1, Hq1, Hi1.
Qed.

(** ** Fetcher: new objects only *)

Lemma for_items_fresh ql (items : list Item) :
  ∀ st (acc : list loc) (accr : list ChatRecord),
    holds_list (heap st) ql acc accr →
    NoDup acc →
    ∃ h' new,
      for_items ql items st = (Ok tt, set_heap h' st) ∧
      holds_list h' ql (acc ++ new)
        (accr ++ (new_record <$> filter (λ i, qualifies i = true) items)) ∧
      NoDup (acc ++ new) ∧
      (∀ l o, l ≠ ql → heap st !! l = Some o → h' !! l = Some o) ∧
      (∀ l, l ∈ new → heap st !! l = None).
Proof.
  induction items as [|item items IH]; intros st acc accr Hq Hnd.
  - exists (heap st), []. rewrite set_heap_id, filter_nil. simpl.
    rewrite !app_nil_r. do 4 (split; [done|]). by intros l ?%elem_of_nil.
  - simpl for_items. rewrite filter_cons.
    destruct (qualifies item) eqn:Hqual.
    + rewrite decide_True by done.
      set (d := fresh (dom (heap st))).
      set (r := new_record item).
      set (st2 := set_heap (<[ql := List (acc ++ [d])]>
                              (<[d := Dict r]> (heap st))) st).
      pose proof Hq as [Hl Hacc]. apply mapM_Some in Hacc.
      assert (heap st !! d = None) as Hd
        by apply (not_elem_of_dom_1 (heap st)), is_fresh.
      assert (d ≠ ql) as Hne by congruence.
      assert (d ∉ acc) as Hdacc.
      { intros Hin. apply list_elem_of_lookup in Hin as [i Hi].
        destruct (Forall2_lookup_l _ _ _ _ _ Hacc Hi) as (r' & _ & Hr').
        apply deref_Some in Hr'. congruence. }
      assert (holds_list (heap st2) ql (acc ++ [d]) (accr ++ [r])) as Hq2.
      { split; [apply lookup_insert_eq|]. apply mapM_Some.
        subst st2. simpl heap. apply Forall2_app.
        - apply derefs_insert_List.
          { rewrite deref_insert_Dict_ne by done. by eapply deref_List. }
          eapply Forall2_impl; [exact Hacc|]. intros q r' Hqr.
          rewrite deref_insert_Dict_ne; [done|]. intros ->.
          apply deref_Some in Hqr. congruence.
        - constructor; [|constructor].
          apply deref_Some. rewrite lookup_insert_ne by done.
          apply lookup_insert_eq. }
      assert (NoDup (acc ++ [d])) as Hnd2.
      { apply NoDup_app. split; [done|]. split; [|apply NoDup_singleton].
        intros x Hx ->%list_elem_of_singleton. done. }
      destruct (IH st2 _ _ Hq2 Hnd2) as (h' & new & Hrun & Hq' & Hnd' & Hframe & Hnew).
      assert (∀ l o, l ≠ ql → heap st !! l = Some o → heap st2 !! l = Some o)
        as Hframe2.
      { intros l o Hlq Hlo. subst st2. simpl.
        rewrite !lookup_insert_ne; [done| |done]. congruence. }
      exists h', (d :: new).
      split; [|split; [|split; [|split]]].
      * rewrite (bind_Ok _ _ st tt st2); [exact Hrun|].
        assert (alloc (Dict r) st
                = (Ok d, set_heap (<[d := Dict r]> (heap st)) st)) as Ha by done.
        step Ha.
        rewrite (list_append_run _ ql acc d); [done|].
        simpl. by rewrite lookup_insert_ne.
      * rewrite fmap_cons. rewrite <-!(assoc_L (++)) in Hq'. exact Hq'.
      * by rewrite <-(assoc_L (++)) in Hnd'.
      * intros l o Hlq Hlo. by apply Hframe, Hframe2.
      * intros l [->|Hin]%elem_of_cons; [done|].
        apply Hnew in Hin.
        destruct (heap st !! l) as [o|] eqn:Hlo; [|done].
        assert (l ≠ ql) as Hlq.
        { intros ->. destruct Hq2 as [Hl2 _]. congruence. }
        by rewrite (Hframe2 l o Hlq Hlo) in Hin.
    + rewrite decide_False by by rewrite not_true_iff_false.
      assert ((mret tt : M unit) st = (Ok tt, st)) as Hret by done.
      step Hret. by apply IH.
Qed.

Lemma scan_loop_fresh scan ql (fuel : nat) :
  ∀ c st (acc : list loc) (accr : list ChatRecord) items,
    scanned fuel scan c = Ok items →
    holds_list (heap st) ql acc accr →
    NoDup acc →
    ∃ h' new,
      scan_loop fuel scan ql c st = (Ok tt, set_heap h' st) ∧
      holds_list h' ql (acc ++ new)
        (accr ++ (new_record <$> filter (λ i, qualifies i = true) items)) ∧
      NoDup (acc ++ new) ∧
      (∀ l o, l ≠ ql → heap st !! l = Some o → h' !! l = Some o) ∧
      (∀ l, l ∈ new → heap st !! l = None).
Proof.
  induction fuel as [|fuel IH]; intros c st acc accr items Hs Hq Hnd; [done|].
  simpl in Hs. simpl scan_loop.
  destruct (scan c) as [response|]; [|done]. simpl call.
  assert ((mret response : M ScanResponse) st = (Ok response, st)) as Hret
    by done.
  step Hret.
  destruct (for_items_fresh ql (default [] (Items response)) st acc accr Hq Hnd)
    as (h1 & new1 & Hrun1 & Hq1 & Hnd1 & Hframe1 & Hnew1).
  step Hrun1.
  destruct (truthy_key (LastEvaluatedKey response)); simpl negb; cbv iota.
  - destruct (scanned fuel scan (LastEvaluatedKey response)) as [rest| |]
      eqn:Hrest; [|done..].
    injection Hs as <-.
    destruct (IH _ (set_heap h1 st) _ _ rest Hrest Hq1 Hnd1)
      as (h' & new & Hrun & Hq' & Hnd' & Hframe & Hnew).
    exists h', (new1 ++ new). split; [exact Hrun|].
    split; [rewrite filter_app, fmap_app; by rewrite !(assoc_L (++))|].
    split; [by rewrite (assoc_L (++))|]. split.
    + intros l o Hlq Hlo. by apply Hframe, Hframe1.
    + intros l [Hin|Hin]%elem_of_app; [by apply Hnew1|].
      apply Hnew in Hin. simpl in Hin.
      destruct (heap st !! l) as [o|] eqn:Hlo; [|done].
      assert (l ≠ ql) as Hlq.
      { intros ->. destruct Hq1 as [Hl1 _]. congruence. }
      by rewrite (Hframe1 l o Hlq Hlo) in Hin.
  - injection Hs as <-. by exists h1, new1.
Qed.

(** The fetcher returns a new list of new dicts, each dict once, and
    leaves every object that was in the store as it was; it sends no
    request of the publisher. *)
Theorem scan_chat_history_allocates fuel w table_name st items :
  scanned fuel (table_scan w table_name) None = Ok items →
  ∃ st' queries qs rs,
    scan_chat_history fuel w table_name st = (Ok queries, st') ∧
    holds_list (heap st') queries qs rs ∧
    heap st !! queries = None ∧
    (∀ q, q ∈ qs → heap st !! q = None) ∧
    NoDup (queries :: qs) ∧
    (∀ l o, heap st !! l = Some o → heap st' !! l = Some o) ∧
    requests st' = requests st.
Proof.
  intros Hs. unfold scan_chat_history.
  step (print_run _ st).
  set (st1 := out_lines _ st).
  set (ql := fresh (dom (heap st1))).
  set (st2 := set_heap (<[ql := List []]> (heap st1)) st1).
  assert (alloc (List []) st1 = (Ok ql, st2)) as Ha by done.
  step Ha.
  assert (heap st !! ql = None) as Hfresh
    by apply (not_elem_of_dom_1 (heap st)), is_fresh.
  assert (holds_list (heap st2) ql [] []) as Hq
    by (split; [apply lookup_insert_eq|done]).
  destruct (scan_loop_fresh _ ql fuel None st2 [] [] items Hs Hq (NoDup_nil_2))
    as (h' & new & Hrun & Hq' & Hnd & Hframe & Hnew).
  step Hrun. simpl in Hq', Hnd.
  assert (∀ l o, heap st !! l = Some o → l ≠ ql) as Hold
    by (intros l o Hlo ->; congruence).
  eexists (set_heap h' st2), ql, new, _.
  split; [done|]. split; [exact Hq'|]. split; [done|].
  split; [|split; [|split; [|done]]].
  - intros q Hin. apply Hnew in Hin. simpl in Hin.
    destruct (heap st !! q) as [o|] eqn:Hqo; [|done].
    pose proof (Hold q o Hqo) as Hne.
    rewrite lookup_insert_ne in Hin by done. simpl in Hin. congruence.
  - constructor; [|done]. intros Hin. apply Hnew in Hin. simpl in Hin.
    by rewrite lookup_insert_eq in Hin.
  - intros l o Hlo. pose proof (Hold l o Hlo) as Hne.
    simpl. apply Hframe; [done|]. simpl. by rewrite lookup_insert_ne.
Qed.

(** ** Fetcher: pagination and failure *)

(** A page without a cursor, or with an empty one, is the last: the
    result is made of its items alone, whatever the store would answer
    to other cursors, and a response without [Items] gives no record. *)
Theorem scan_chat_history_stops_without_cursor fuel w table_name st response :
  table_scan w table_name None = Returns response →
  LastEvaluatedKey response = None ∨ LastEvaluatedKey response = Some [] →
  1 ≤ fuel →
  ∃ st' queries qs rs,
    scan_chat_history fuel w table_name st = (Ok queries, st') ∧
    holds_list (heap st') queries qs rs ∧
    rs = new_record <$> filter (λ i, qualifies i = true)
                          (default [] (Items response)).
Proof.
  intros Hscan Hkey Hfuel.
  assert (scanned fuel (table_scan w table_name) None
          = Ok (default [] (Items response))) as Hs.
  { apply (scanned_mono _ 1); [|done]. simpl. rewrite Hscan.
    by destruct Hkey as [-> | ->]. }
  destruct (scan_chat_history_run fuel w table_name st _ Hs)
    as (st' & ql & qs & Hrun & _ & _ & Hq).
  by eexists st', ql, qs, _.
Qed.

Lemma scan_loop_endless scan ql :
  (∀ c, ∃ response, scan c = Returns response ∧
                    truthy_key (LastEvaluatedKey response) = true) →
  ∀ (fuel : nat) c st (acc : list loc) (accr : list ChatRecord),
    holds_list (heap st) ql acc accr →
    ∃ h', scan_loop fuel scan ql c st = (OutOfFuel, set_heap h' st).
Proof.
  intros Hscan. induction fuel as [|fuel IH]; intros c st acc accr Hq.
  - exists (heap st). by rewrite set_heap_id.
  - simpl scan_loop. destruct (Hscan c) as (response & -> & Hkey). simpl call.
    assert ((mret response : M ScanResponse) st = (Ok response, st)) as Hret
      by done.
    step Hret.
    destruct (for_items_run ql (default [] (Items response)) st acc accr Hq)
      as (h1 & new1 & Hrun1 & Hq1).
    step Hrun1. rewrite Hkey. simpl negb. cbv iota.
    destruct (IH (LastEvaluatedKey response) (set_heap h1 st) _ _ Hq1)
      as (h' & Hrun).
    by exists h'.
Qed.

(** The loop has no other way out than a page without a cursor: against
    a store that answers every call with a cursor the fetcher does not
    return within any number of pages, and neither does the process. *)
Theorem scan_chat_history_needs_last_page w :
  import_error w = None →
  (∀ c, ∃ response,
     table_scan w (CHAT_HISTORY_TABLE w) c = Returns response ∧
     ∃ k ks, LastEvaluatedKey response = Some (k :: ks)) →
  ∀ fuel,
    (∃ st', scan_chat_history fuel w (CHAT_HISTORY_TABLE w) initial
            = (OutOfFuel, st')) ∧
    (run fuel w).1 = None.
Proof.
  intros Hi Hscan fuel.
  assert (∃ st', scan_chat_history fuel w (CHAT_HISTORY_TABLE w) initial
                 = (OutOfFuel, st')) as (st' & Hrun).
  { unfold scan_chat_history.
    step (print_run _ initial).
    set (st1 := out_lines _ initial).
    set (ql := fresh (dom (heap st1))).
    set (st2 := set_heap (<[ql := List []]> (heap st1)) st1).
    assert (alloc (List []) st1 = (Ok ql, st2)) as Ha by done.
    step Ha.
    assert (holds_list (heap st2) ql [] []) as Hq
      by (split; [apply lookup_insert_eq|done]).
    destruct (scan_loop_endless (table_scan w (CHAT_HISTORY_TABLE w)) ql)
      with (fuel := fuel) (c := @None Key) (st := st2) (acc := @nil loc)
           (accr := @nil ChatRecord) as (h' & Hloop); [|done|].
    { intros c. destruct (Hscan c) as (response & Hc & k & ks & Hk).
      exists response. split; [done|]. by rewrite Hk. }
    rewrite (bind_OutOfFuel _ _ _ _ Hloop). by eexists. }
  split; [by exists st'|].
  unfold run, script. rewrite Hi. unfold main.
  by rewrite (bind_OutOfFuel _ _ _ _ Hrun).
Qed.

Lemma scan_chat_history_raise_console fuel w table_name st e :
  scanned fuel (table_scan w table_name) None = Raise e →
  ∃ st',
    scan_chat_history fuel w table_name st = (Raise e, st') ∧
    stdout st'
    = stdout st ++ [lit "Scanning DynamoDB table '" ++ table_name ++ lit "'..."] ∧
    requests st' = requests st.
Proof.
  intros Hs. unfold scan_chat_history.
  step (print_run _ st).
  set (st1 := out_lines _ st).
  set (ql := fresh (dom (heap st1))).
  set (st2 := set_heap (<[ql := List []]> (heap st1)) st1).
  assert (alloc (List []) st1 = (Ok ql, st2)) as Ha by done.
  step Ha.
  assert (holds_list (heap st2) ql [] []) as Hq
    by (split; [apply lookup_insert_eq|done]).
  destruct (scan_loop_raise _ ql fuel None st2 [] [] e Hs Hq) as (h' & Hrun).
  rewrite (bind_Raise _ _ _ _ _ Hrun). by exists (set_heap h' st2).
Qed.

(** An exception of [table.scan] is not caught: the fetcher returns no
    list, the exception reaches the top level, and the process ends with
    status 1 after the line that announces the scan, without a request
    to the dataset service. *)
Theorem fetch_failure_ends_run fuel w what :
  import_error w = None →
  fetched fuel w = Raise (Exception what) →
  ∃ st,
    script fuel w initial = (Raise (Exception what), st) ∧
    (run fuel w).1 = Some 1%Z ∧
    stdout st
    = [lit "Scanning DynamoDB table '" ++ CHAT_HISTORY_TABLE w ++ lit "'..."] ∧
    requests st = [].
Proof.
  intros Hi Hf%fetched_Raise.
  destruct (scan_chat_history_raise_console fuel w _ initial _ Hf)
    as (st & Hrun & Hout & Hreq).
  assert (script fuel w initial = (Raise (Exception what), st)) as Hscript.
  { unfold script. rewrite Hi. unfold main.
    by rewrite (bind_Raise _ _ _ _ _ Hrun). }
  exists st. split; [done|]. split; [|done].
  unfold run. by rewrite Hscript.
Qed.

(** ** Filter: how results relate *)

Lemma accept_all {A} (rec : A → ChatRecord) seen (l : list A) :
  NoDup (normalized ∘ rec <$> l) →
  Forall (λ a, passes (rec a) = true) l →
  (∀ a, a ∈ l → normalized (rec a) ∉ seen) →
  accept rec seen l = l.
Proof.
  revert seen. induction l as [|a l IH]; intros seen Hnd Hpass Hseen; [done|].
  rewrite fmap_cons in Hnd. apply NoDup_cons in Hnd as [Ha Hnd].
  apply Forall_cons in Hpass as [Hpa Hpass]. simpl.
  rewrite decide_False by (apply Hseen; by left). rewrite Hpa. f_equal.
  apply IH; [done..|].
  intros b Hb [Heq%elem_of_singleton|Hin]%elem_of_union.
  - apply Ha, list_elem_of_fmap. exists b. by split.
  - apply (Hseen b); [by right|done].
Qed.

Lemma take_count_from_one target :
  (1 ≤ target)%Z → take_count target 0 = Z.to_nat target.
Proof. unfold take_count. lia. Qed.

Lemma take_count_up_to_one target :
  (target ≤ 1)%Z → take_count target 0 = 1.
Proof. unfold take_count. lia. Qed.

(** The examples of a result, as pairs of address and record, pass the
    filter again unchanged. *)
Lemma golden_stable target (s : list (loc * ChatRecord)) :
  StronglySorted (λ a b : loc * ChatRecord,
                    ((timestamp ∘ snd) b ≤ (timestamp ∘ snd) a)%Z) s →
  let out := take (take_count target 0) (accept snd ∅ s) in
  sort_desc (timestamp ∘ snd) out = out ∧
  take (take_count target 0) (accept snd ∅ out) = out.
Proof.
  intros Hs out.
  assert (out `sublist_of` accept snd ∅ s) as Hsub by apply sublist_take.
  split.
  - apply sort_desc_id. eapply sublist_StronglySorted; [|exact Hs].
    etrans; [exact Hsub|apply accept_sublist].
  - rewrite accept_all.
    + unfold out. rewrite take_take. f_equal. lia.
    + eapply sublist_NoDup;
        [apply (accept_NoDup (snd : loc * ChatRecord → ChatRecord) ∅ s)|].
      by apply (fmap_sublist (normalized ∘ snd)).
    + eapply sublist_Forall; [exact Hsub|apply accept_passes].
    + intros a _. apply not_elem_of_empty.
Qed.

(** The filter is idempotent: applied to its own result it returns the
    same examples, the same dicts in the same order, and leaves that
    result list in its order. *)
Theorem filter_golden_idempotent st queries (qs : list loc)
    (rs : list ChatRecord) target :
  holds_list (heap st) queries qs rs →
  ∃ st' golden gs grs st'' again,
    filter_golden queries target st = (Ok golden, st') ∧
    holds_list (heap st') golden gs grs ∧
    filter_golden golden target st' = (Ok again, st'') ∧
    holds_list (heap st'') again gs grs ∧
    holds_list (heap st'') golden gs grs.
Proof.
  intros Hq.
  destruct (filter_golden_returns st queries qs rs target Hq)
    as (g & s & out & st' & Hrun & _ & _ & Hs & Hout & _ & _ & _ & Hg & _).
  destruct (filter_golden_returns st' g _ _ target Hg)
    as (g2 & s2 & out2 & st'' & Hrun2 & _ & _ & Hs2 & Hout2 & _ & _ & _
        & Hg2 & Hl2).
  rewrite zip_fst_snd in Hs2.
  assert (StronglySorted (λ a b : loc * ChatRecord,
            ((timestamp ∘ snd) b ≤ (timestamp ∘ snd) a)%Z) s) as Hsorted
    by (rewrite Hs; apply sort_desc_sorted).
  destruct (golden_stable target s Hsorted) as [Hsort Htake].
  rewrite <-Hout in Hsort, Htake.
  rewrite Hsort in Hs2. subst s2. rewrite Htake in Hout2. subst out2.
  by eexists st', g, _, _, st'', g2.
Qed.

(** A larger target only adds examples at the end: for targets from one
    up, the result for the smaller target is the beginning of the result
    for the larger one. *)
Theorem filter_golden_prefix st queries (qs : list loc) (rs : list ChatRecord)
    small large :
  holds_list (heap st) queries qs rs →
  (1 ≤ small)%Z →
  (small ≤ large)%Z →
  ∃ st1 golden1 gs1 grs1 st2 golden2 gs2 grs2,
    filter_golden queries small st = (Ok golden1, st1) ∧
    holds_list (heap st1) golden1 gs1 grs1 ∧
    filter_golden queries large st = (Ok golden2, st2) ∧
    holds_list (heap st2) golden2 gs2 grs2 ∧
    gs1 = take (Z.to_nat small) gs2 ∧
    grs1 = take (Z.to_nat small) grs2.
Proof.
  intros Hq Hsmall Hle.
  destruct (filter_golden_returns st queries qs rs small Hq)
    as (g1 & s1 & out1 & st1 & Hrun1 & _ & _ & -> & -> & _ & _ & _ & Hg1 & _).
  destruct (filter_golden_returns st queries qs rs large Hq)
    as (g2 & s2 & out2 & st2 & Hrun2 & _ & _ & -> & -> & _ & _ & _ & Hg2 & _).
  eexists st1, g1, _, _, st2, g2, _, _.
  split; [exact Hrun1|]. split; [exact Hg1|].
  split; [exact Hrun2|]. split; [exact Hg2|].
  rewrite !take_count_from_one by lia.
  rewrite <-!fmap_take, take_take.
  by replace (Z.to_nat small `min` Z.to_nat large) with (Z.to_nat small) by lia.
Qed.

(** A target of one or less, zero and the negative ones too, gives what
    the target one gives: the most recent passing candidate when there is
    one. *)
Theorem filter_golden_low_target st queries (qs : list loc)
    (rs : list ChatRecord) target :
  holds_list (heap st) queries qs rs →
  (target ≤ 1)%Z →
  ∃ st' golden gs grs,
    filter_golden queries target st = (Ok golden, st') ∧
    filter_golden queries 1 st = (Ok golden, st') ∧
    holds_list (heap st') golden gs grs ∧
    grs = take 1 (passing rs).
Proof.
  intros Hq Htarget.
  pose proof (holds_list_length _ _ _ _ Hq) as Hlen.
  destruct (filter_golden_returns st queries qs rs target Hq)
    as (g & s & out & st' & Hrun & _ & _ & -> & -> & _ & _ & _ & Hg & _).
  destruct Hq as [Hl Hqs]. apply mapM_Some in Hqs.
  pose proof (filter_golden_run st queries qs rs target Hl Hqs) as Hrun0.
  pose proof (filter_golden_run st queries qs rs 1 Hl Hqs) as Hrun1.
  simpl in Hrun0, Hrun1.
  rewrite take_count_up_to_one in Hrun0, Hg by done.
  rewrite take_count_up_to_one in Hrun1 by done.
  rewrite Hrun in Hrun0. rewrite <-Hrun0 in Hrun1.
  eexists st', g, _, _. split; [exact Hrun|]. split; [exact Hrun1|].
  split; [exact Hg|].
  rewrite <-(take_count_up_to_one 1) at 1 by done.
  rewrite golden_records_eq by done. unfold golden_records.
  by rewrite take_count_up_to_one.
Qed.

(** When every candidate passes both quality filters and no two have the
    same normalized question, nothing is skipped: the caller's list holds
    the same dicts rearranged most recent first, and the result is the
    beginning of that list, the [target] most recent candidates, or all of
    them when they are fewer. *)
Theorem filter_golden_most_recent st queries (qs : list loc)
    (rs : list ChatRecord) target :
  holds_list (heap st) queries qs rs →
  (1 ≤ target)%Z →
  Forall (λ r, too_short r = false ∧ error_without_select r = false) rs →
  NoDup (normalized <$> rs) →
  ∃ st' golden gs grs qs' rs',
    filter_golden queries target st = (Ok golden, st') ∧
    holds_list (heap st') golden gs grs ∧
    holds_list (heap st') queries qs' rs' ∧
    zip qs' rs' ≡ₚ zip qs rs ∧
    StronglySorted (λ a b, (timestamp b ≤ timestamp a)%Z) rs' ∧
    gs = take (Z.to_nat target) qs' ∧
    grs = take (Z.to_nat target) rs' ∧
    length grs = Z.to_nat target `min` length rs.
Proof.
  intros Hq Htarget Hpass Hnd.
  pose proof (holds_list_length _ _ _ _ Hq) as Hlen.
  destruct (filter_golden_returns st queries qs rs target Hq)
    as (g & s & out & st' & Hrun & _ & _ & Hs & Hout & _ & _ & _ & Hg & Hl).
  assert (s.*2 ≡ₚ rs) as Hperm.
  { rewrite Hs, sorted_records by done. apply sort_desc_Permutation. }
  assert (accept snd ∅ s = s) as Hall.
  { apply accept_all.
    - rewrite list_fmap_compose. by rewrite Hperm.
    - apply (Forall_fmap snd (λ r, passes r = true)). rewrite Hperm.
      eapply Forall_impl; [exact Hpass|].
      intros r [Hshort Hsql]. unfold passes. by rewrite Hshort, Hsql.
    - intros a _. apply not_elem_of_empty. }
  rewrite Hall, take_count_from_one in Hout by done. subst out.
  rewrite !fmap_take in Hg.
  eexists st', g, _, _, _, _.
  split; [exact Hrun|]. split; [exact Hg|]. split; [exact Hl|].
  split; [by rewrite zip_fst_snd, Hs, sort_desc_Permutation|].
  split.
  { apply (StronglySorted_fmap (snd : loc * ChatRecord → ChatRecord)
             (λ a b, (timestamp (snd b) ≤ timestamp (snd a))%Z)); [done|].
    rewrite Hs. apply (sort_desc_sorted (timestamp ∘ snd)). }
  split; [done|]. split; [done|].
  by rewrite length_take, Hperm.
Qed.

(** The filter prints nothing and sends no request; it adds one object
    to the store, the list it returns, at an address that held nothing
    before the call and is not the caller's list, and writes to no other
    object than the caller's list. *)
Theorem filter_golden_frame st queries (qs : list loc) (rs : list ChatRecord)
    target :
  holds_list (heap st) queries qs rs →
  ∃ st' golden gs grs,
    filter_golden queries target st = (Ok golden, st') ∧
    holds_list (heap st') golden gs grs ∧
    stdout st' = stdout st ∧
    requests st' = requests st ∧
    heap st !! golden = None ∧
    golden ≠ queries ∧
    dom (heap st') = {[golden]} ∪ dom (heap st) ∧
    ∀ l o, l ≠ queries → heap st !! l = Some o → heap st' !! l = Some o.
Proof.
  intros Hq.
  destruct (filter_golden_returns st queries qs rs target Hq)
    as (g & s & out & st' & Hrun & Hout & Hreq & _ & _ & Hh & Hfresh & Hne
        & Hg & _).
  eexists st', g, _, _. split; [exact Hrun|]. split; [exact Hg|].
  split; [done|]. split; [done|]. split; [done|]. split; [done|]. split.
  - rewrite Hh, !dom_insert_L.
    assert (queries ∈ dom (heap st)) as Hin.
    { apply elem_of_dom. destruct Hq as [Hl _]. by eexists. }
    f_equal. apply subseteq_union_1_L. by apply singleton_subseteq_l.
  - intros l o Hlq Hlo. rewrite Hh.
    rewrite !lookup_insert_ne; [done|done|]. congruence.
Qed.

(** ** The process: console and requests of each way to end *)

Lemma take_min_length {A} n (l : list A) : take (n `min` length l) l = take n l.
Proof.
  destruct (decide (n ≤ length l)) as [Hle|Hgt].
  - by rewrite Nat.min_l.
  - rewrite Nat.min_r by lia. by rewrite !take_ge by lia.
Qed.

Lemma print_sample_lines st golden (gs : list loc) (grs : list ChatRecord) i r :
  holds_list (heap st) golden gs grs → grs !! i = Some r →
  print_sample golden i st = (Ok tt, out_lines (sample_lines i r) st).
Proof.
  intros [Hl Hgs] Hi. apply mapM_Some in Hgs.
  destruct (Forall2_lookup_r _ _ _ _ _ Hgs Hi) as (q & Hq & Hr).
  unfold print_sample.
  step (list_get_run st _ _ _ _ Hl Hq).
  step (read_dict_run st _ _ Hr).
  step (print_run _ _).
  step (list_get_run (out_lines _ st) _ _ _ _ Hl Hq).
  step (read_dict_run (out_lines _ st) _ _ Hr).
  step (print_run _ _).
  step (list_get_run (out_lines _ (out_lines _ st)) _ _ _ _ Hl Hq).
  step (read_dict_run (out_lines _ (out_lines _ st)) _ _ Hr).
  rewrite print_run. unfold out_lines, sample_lines. simpl.
  by rewrite <-!(assoc_L (++)).
Qed.

Lemma samples_lines golden (gs : list loc) (grs : list ChatRecord) (k : nat) :
  ∀ start st,
    holds_list (heap st) golden gs grs →
    start + k ≤ length grs →
    ∃ us,
      mapM (print_sample golden) (seq start k) st
      = (Ok us, out_lines (sample_block start (take k (drop start grs))) st).
Proof.
  induction k as [|k IH]; intros start st Hg Hle.
  - exists []. simpl. unfold out_lines. rewrite app_nil_r. by destruct st.
  - destruct (lookup_lt_is_Some_2 grs start) as [r Hr]; [lia|].
    pose proof (print_sample_lines st golden gs grs start r Hg Hr) as Hrun1.
    destruct (IH (S start) (out_lines (sample_lines start r) st) Hg)
      as (us & Hrun2); [lia|].
    exists (tt :: us). simpl seq. simpl mapM. step Hrun1. step Hrun2.
    rewrite (drop_S _ _ _ Hr). simpl.
    unfold out_lines. simpl. by rewrite <-!(assoc_L (++)).
Qed.

(** [main] up to the upload, with what it has printed by then. *)
Lemma main_console fuel w st rs :
  fetched fuel w = Ok rs →
  let grs := golden_records rs TARGET_COUNT in
  let found :=
    [ lit "Scanning DynamoDB table '" ++ CHAT_HISTORY_TABLE w ++ lit "'...";
      lit "Found " ++ Text.str (Z.of_nat (length rs))
        ++ lit " successful queries with SQL and insights" ] in
  (rs = [] →
   ∃ st', main fuel w st = (Raise (SystemExit 1), st') ∧
          requests st' = requests st ∧
          stdout st'
          = stdout st ++ found
            ++ [lit "No queries found. Use the analytics chat in the dashboard first."]) ∧
  (rs ≠ [] → grs = [] →
   ∃ st', main fuel w st = (Raise (SystemExit 1), st') ∧
          requests st' = requests st ∧
          stdout st'
          = stdout st ++ found
            ++ [lit "Filtered to 0 golden examples";
                lit "No examples passed quality filters."]) ∧
  (grs ≠ [] →
   ∃ st1,
     requests st1 = requests st ∧
     stdout st1 = stdout st ++ console_to_upload w rs grs ∧
     main fuel w st
     = (upload w (input_row <$> grs) (output_row <$> grs) (metadata_row <$> grs);;
        print (lit "View in Phoenix UI: " ++ PHOENIX_URL w);;
        print (lit "Navigate to: Datasets > " ++ DATASET_NAME)) st1).
Proof.
  intros (items & Hs & Hrs)%fetched_Ok grs found.
  destruct (scan_chat_history_run fuel w _ st items Hs)
    as (st1 & ql & qs & Hrun & Hout1 & Hreq1 & Hq).
  rewrite <-Hrs in Hq.
  pose proof (holds_list_length _ _ _ _ Hq) as Hlen.
  pose proof Hq as [Hl _].
  unfold main. step Hrun.
  step (len_run st1 _ _ Hl).
  step (print_run _ _).
  set (st1a := out_lines _ st1).
  step (len_run st1a _ _ Hl).
  assert (stdout st1a = stdout st ++ found) as Hfound.
  { subst st1a found. simpl. rewrite Hout1, Hlen. by rewrite <-(assoc_L (++)). }
  destruct (decide (rs = [])) as [->|Hne].
  { split; [|split]; [|done|by intros []; apply golden_records_nil].
    intros _. destruct qs; [|done]. simpl length. simpl Nat.eqb. cbv iota.
    eexists. split; [reflexivity|]. simpl. split; [done|].
    rewrite Hout1. by rewrite <-!(assoc_L (++)). }
  split; [done|].
  assert ((length qs =? 0) = false) as ->.
  { apply Nat.eqb_neq. rewrite Hlen. by destruct rs. }
  assert ((mret tt : M unit) st1a = (Ok tt, st1a)) as Hret by done.
  step Hret.
  destruct (filter_golden_returns st1a ql qs rs TARGET_COUNT Hq)
    as (g & s & out & st2 & Hfilter & Hout2 & Hreq2 & -> & -> & _ & _ & _
        & Hg & _).
  rewrite golden_records_eq in Hg by done. fold grs in Hg.
  set (gs := (take _ _).*1) in Hg.
  step Hfilter.
  pose proof (holds_list_length _ _ _ _ Hg) as Hglen.
  pose proof Hg as [Hgl _].
  step (len_run st2 _ _ Hgl).
  step (print_run _ _).
  set (st2a := out_lines _ st2).
  step (len_run st2a _ _ Hgl).
  split.
  - intros _ Hnil. rewrite Hnil in Hglen. destruct gs; [|done].
    simpl length. simpl Nat.eqb. cbv iota.
    eexists. split; [reflexivity|]. simpl. split; [by rewrite Hreq2|].
    rewrite Hout2, Hfound. by rewrite <-!(assoc_L (++)).
  - intros Hgrs.
    assert ((length gs =? 0) = false) as ->.
    { apply Nat.eqb_neq. rewrite Hglen. by destruct grs. }
    assert ((mret tt : M unit) st2a = (Ok tt, st2a)) as Hret2 by done.
    step Hret2.
    step (print_run _ _).
    set (st2b := out_lines _ st2a).
    step (len_run st2b _ _ Hgl).
    destruct (samples_lines g gs grs (3 `min` length gs) 0 st2b Hg)
      as (us & Hsamples); [lia|].
    rewrite drop_0, Hglen, take_min_length in Hsamples. rewrite Hglen.
    step Hsamples.
    step (print_run _ _).
    set (st3 := out_lines _ (out_lines _ st2b)).
    step (comprehension_run input_row st3 _ _ _ Hg).
    step (comprehension_run output_row st3 _ _ _ Hg).
    step (comprehension_run metadata_row st3 _ _ _ Hg).
    step (len_run st3 _ _ Hgl).
    step (print_run _ _).
    eexists. split; [|split; [|reflexivity]].
    + simpl. by rewrite Hreq2.
    + simpl. rewrite Hout2, Hfound, Hglen. unfold console_to_upload, found.
      by rewrite <-!(assoc_L (++)).
Qed.

(** When the fetch yields no record the process prints three lines, the
    last of them the advice to use the chat first, sends no request and
    exits with status 1. *)
Theorem no_queries_ends_run fuel w :
  import_error w = None →
  fetched fuel w = Ok [] →
  ∃ st,
    run fuel w = (Some 1%Z, st) ∧
    requests st = [] ∧
    stdout st
    = [ lit "Scanning DynamoDB table '" ++ CHAT_HISTORY_TABLE w ++ lit "'...";
        lit "Found 0 successful queries with SQL and insights";
        lit "No queries found. Use the analytics chat in the dashboard first." ].
Proof.
  intros Hi Hf.
  destruct (main_console fuel w initial [] Hf) as (Hnone & _).
  destruct (Hnone eq_refl) as (st & Hmain & Hreq & Hout).
  exists st. split; [by apply (run_main _ _ _ _ Hi Hmain)|]. by split.
Qed.

(** When records were fetched and none passes the filter the process
    reports the two counts and that no example passed, sends no request
    and exits with status 1. *)
Theorem no_examples_ends_run fuel w rs :
  import_error w = None →
  fetched fuel w = Ok rs →
  rs ≠ [] →
  golden_records rs TARGET_COUNT = [] →
  ∃ st,
    run fuel w = (Some 1%Z, st) ∧
    requests st = [] ∧
    stdout st
    = [ lit "Scanning DynamoDB table '" ++ CHAT_HISTORY_TABLE w ++ lit "'...";
        lit "Found " ++ Text.str (Z.of_nat (length rs))
          ++ lit " successful queries with SQL and insights";
        lit "Filtered to 0 golden examples";
        lit "No examples passed quality filters." ].
Proof.
  intros Hi Hf Hrs Hg.
  destruct (main_console fuel w initial rs Hf) as (_ & Hnone & _).
  destruct (Hnone Hrs Hg) as (st & Hmain & Hreq & Hout).
  exists st. split; [by apply (run_main _ _ _ _ Hi Hmain)|]. by split.
Qed.

(** When the upload returns, the process sends this one request and no
    verification, prints the success line without a count after the line
    that names the local count, then its two closing lines, and exits
    with status 0. *)
Theorem clean_upload_console fuel w rs :
  import_error w = None →
  fetched fuel w = Ok rs →
  golden_records rs TARGET_COUNT ≠ [] →
  create_dataset w (payload (golden_records rs TARGET_COUNT)) = Returns tt →
  ∃ st,
    run fuel w = (Some 0%Z, st) ∧
    requests st = [CreateDataset (payload (golden_records rs TARGET_COUNT))] ∧
    stdout st
    = console_to_upload w rs (golden_records rs TARGET_COUNT)
      ++ [ Text.nl ++ lit "Dataset created successfully!";
           lit "View in Phoenix UI: " ++ PHOENIX_URL w;
           lit "Navigate to: Datasets > " ++ DATASET_NAME ].
Proof.
  intros Hi Hf Hg Hc.
  destruct (main_console fuel w initial rs Hf) as (_ & _ & Hup).
  destruct (Hup Hg) as (st1 & Hreq & Hout & Hmain).
  destruct (upload_returns w _ _ _ st1 Hc) as (st' & Hrun & Hreq' & Hout').
  rewrite (closing_lines _ _ _ _ _ Hrun) in Hmain.
  eexists. split; [by apply (run_main _ _ _ _ Hi Hmain)|]. simpl.
  split; [by rewrite Hreq', Hreq|].
  rewrite Hout', Hout. simpl. by rewrite <-!(assoc_L (++)).
Qed.

(** When the upload raises and the verification answers, with every
    level of the answer present, without a dataset of the fixed name, the
    process prints the warning with the message of the upload's exception
    as its last line, not the closing lines, and exits with status 1. *)
Theorem unconfirmed_upload_console fuel w rs e body es :
  import_error w = None →
  fetched fuel w = Ok rs →
  golden_records rs TARGET_COUNT ≠ [] →
  create_dataset w (payload (golden_records rs TARGET_COUNT)) = Raises e →
  graphql_post w (PHOENIX_URL w ++ lit "/graphql") GRAPHQL_QUERY = Returns body →
  edges_of body = Returns es →
  (∀ d, d ∈ es → name (node d) ≠ DATASET_NAME) →
  ∃ st,
    run fuel w = (Some 1%Z, st) ∧
    requests st
    = [CreateDataset (payload (golden_records rs TARGET_COUNT));
       HttpPost (PHOENIX_URL w ++ lit "/graphql") GRAPHQL_QUERY] ∧
    stdout st
    = console_to_upload w rs (golden_records rs TARGET_COUNT)
      ++ [ Text.nl ++ lit "Warning: Upload may have failed - " ++ e ].
Proof.
  intros Hi Hf Hg Hc Hp He Hnone.
  assert (verification w = Returns es) as Hv
    by (unfold verification; by rewrite Hp).
  assert (matching es = []) as Hm.
  { destruct (matching es) as [|d ds] eqn:Hm; [done|].
    assert (d ∈ matching es) as Hin by (rewrite Hm; by left).
    apply list_elem_of_filter in Hin as [Hname Hin]. by apply Hnone in Hin. }
  destruct (main_console fuel w initial rs Hf) as (_ & _ & Hup).
  destruct (Hup Hg) as (st1 & Hreq & Hout & Hmain).
  destruct (upload_unconfirmed w _ _ _ st1 e es Hc Hv Hm)
    as (st' & Hrun & Hreq' & Hout').
  rewrite (bind_Raise _ _ _ _ _ Hrun) in Hmain.
  exists st'. split; [by apply (run_main _ _ _ _ Hi Hmain)|].
  split; [by rewrite Hreq', Hreq|]. by rewrite Hout', Hout.
Qed.

(** When the upload raises and the verification raises too, be it its
    request or the reading of an answer with a null level, it is the
    exception of the verification that reaches the top level: the process
    prints nothing after the line that announced the upload and exits with
    status 1. *)
Theorem failed_lookup_console fuel w rs e e' :
  import_error w = None →
  fetched fuel w = Ok rs →
  golden_records rs TARGET_COUNT ≠ [] →
  create_dataset w (payload (golden_records rs TARGET_COUNT)) = Raises e →
  verification w = Raises e' →
  ∃ st,
    script fuel w initial = (Raise (Exception e'), st) ∧
    (run fuel w).1 = Some 1%Z ∧
    requests st
    = [CreateDataset (payload (golden_records rs TARGET_COUNT));
       HttpPost (PHOENIX_URL w ++ lit "/graphql") GRAPHQL_QUERY] ∧
    stdout st = console_to_upload w rs (golden_records rs TARGET_COUNT).
Proof.
  intros Hi Hf Hg Hc Hv.
  destruct (main_console fuel w initial rs Hf) as (_ & _ & Hup).
  destruct (Hup Hg) as (st1 & Hreq & Hout & Hmain).
  destruct (upload_verification_raises w _ _ _ st1 e e' Hc Hv)
    as (st' & Hrun & Hreq' & Hout').
  rewrite (bind_Raise _ _ _ _ _ Hrun) in Hmain.
  assert (script fuel w initial = (Raise (Exception e'), st')) as Hscript
    by (unfold script; by rewrite Hi).
  exists st'. split; [done|]. split; [unfold run; by rewrite Hscript|].
  split; [by rewrite Hreq', Hreq|]. by rewrite Hout', Hout.
Qed.

Lemma golden_records_at_most_target rs :
  length (golden_records rs TARGET_COUNT) ≤ 50.
Proof.
  unfold golden_records. rewrite length_take.
  assert (take_count TARGET_COUNT 0 = 50) as -> by reflexivity. lia.
Qed.

(** Whatever the store and the service do, a run that ends sends nothing,
    or one upload, or one upload followed by one verification query, in
    this order; and an upload carries between 1 and 50 examples, under the
    fixed name, with as many output and metadata rows as inputs. *)
Theorem requests_of_a_run fuel w :
  fetched fuel w ≠ OutOfFuel →
  ∃ status st,
    run fuel w = (status, st) ∧
    (requests st = [] ∨
     ∃ args,
       (requests st = [CreateDataset args] ∨
        requests st = [CreateDataset args;
                       HttpPost (PHOENIX_URL w ++ lit "/graphql") GRAPHQL_QUERY]) ∧
       arg_name args = DATASET_NAME ∧
       1 ≤ length (arg_inputs args) ≤ 50 ∧
       length (arg_outputs args) = length (arg_inputs args) ∧
       length (arg_metadata args) = length (arg_inputs args)).
Proof.
  intros Hfuel.
  destruct (import_error w) as [msg|] eqn:Hi.
  { eexists _, _. split; [unfold run, script; by rewrite Hi|]. by left. }
  destruct (fetched fuel w) as [rs|e|] eqn:Hf; [| |done].
  2:{ apply fetched_Raise in Hf.
      destruct (scan_chat_history_raise_console fuel w _ initial _ Hf)
        as (st & Hrun & _ & Hreq).
      assert (main fuel w initial = (Raise e, st)) as Hmain
        by (unfold main; by rewrite (bind_Raise _ _ _ _ _ Hrun)).
      eexists _, st. split; [by apply (run_main _ _ _ _ Hi Hmain)|]. by left. }
  destruct (main_console fuel w initial rs Hf) as (Hnone & Hrejected & Hup).
  destruct (decide (rs = [])) as [Hrs|Hrs].
  { destruct (Hnone Hrs) as (st & Hmain & Hreq & _).
    eexists _, st. split; [by apply (run_main _ _ _ _ Hi Hmain)|]. by left. }
  destruct (decide (golden_records rs TARGET_COUNT = [])) as [Hg|Hg].
  { destruct (Hrejected Hrs Hg) as (st & Hmain & Hreq & _).
    eexists _, st. split; [by apply (run_main _ _ _ _ Hi Hmain)|]. by left. }
  clear Hnone Hrejected.
  destruct (Hup Hg) as (st1 & Hreq & _ & Hmain). clear Hup. simpl in Hreq.
  set (grs := golden_records rs TARGET_COUNT) in *.
  assert (arg_name (payload grs) = DATASET_NAME ∧
          1 ≤ length (arg_inputs (payload grs)) ≤ 50 ∧
          length (arg_outputs (payload grs)) = length (arg_inputs (payload grs)) ∧
          length (arg_metadata (payload grs)) = length (arg_inputs (payload grs)))
    as Hargs.
  { simpl. rewrite !length_fmap. split; [done|]. split; [|done].
    pose proof (golden_records_at_most_target rs) as Hmax. fold grs in Hmax.
    destruct grs; [done|]. simpl in *. lia. }
  destruct (create_dataset w (payload grs)) as [[]|e] eqn:Hc.
  { destruct (upload_returns w _ _ _ st1 Hc) as (st' & Hrun & Hreq' & _).
    rewrite (closing_lines _ _ _ _ _ Hrun) in Hmain.
    eexists _, _. split; [by apply (run_main _ _ _ _ Hi Hmain)|].
    right. exists (payload grs). split; [|done]. left. simpl.
    by rewrite Hreq', Hreq. }
  destruct (verification w) as [es|e'] eqn:Hv.
  - destruct (matching es) as [|m ms] eqn:Hm.
    + destruct (upload_unconfirmed w _ _ _ st1 e es Hc Hv Hm)
        as (st' & Hrun & Hreq' & _).
      rewrite (bind_Raise _ _ _ _ _ Hrun) in Hmain.
      eexists _, st'. split; [by apply (run_main _ _ _ _ Hi Hmain)|].
      right. exists (payload grs). split; [|done]. right.
      by rewrite Hreq', Hreq.
    + destruct (upload_verified w _ _ _ st1 e es m ms Hc Hv Hm)
        as (st' & Hrun & Hreq' & _).
      rewrite (closing_lines _ _ _ _ _ Hrun) in Hmain.
      eexists _, _. split; [by apply (run_main _ _ _ _ Hi Hmain)|].
      right. exists (payload grs). split; [|done]. right. simpl.
      by rewrite Hreq', Hreq.
  - destruct (upload_verification_raises w _ _ _ st1 e e' Hc Hv)
      as (st' & Hrun & Hreq' & _).
    rewrite (bind_Raise _ _ _ _ _ Hrun) in Hmain.
    eexists _, st'. split; [by apply (run_main _ _ _ _ Hi Hmain)|].
    right. exists (payload grs). split; [|done]. right.
    by rewrite Hreq', Hreq.
Qed.

End Properties.

(** * The properties on sample data *)

(** The sample data is all in ASCII, where the tables of [Example.tables]
    are those of the interpreter. *)
#[local] Existing Instance Example.tables.

Lemma filter_golden_length_witness :
  ∃ st' golden gs grs,
    filter_golden 1%positive 1 (Example.store Example.candidates)
    = (Ok golden, st') ∧
    holds_list (heap st') golden gs grs ∧
    grs = take (Z.to_nat 1) (passing Example.candidates) ∧
    length grs = Z.to_nat 1 `min` length (passing Example.candidates).
Proof.
  apply (filter_golden_length _ _ (Example.addresses 5) Example.candidates).
  - split; reflexivity.
  - lia.
Defined.

(** C3, at the target 0: the loop tests the size only after it has
    appended, so one example is returned although none was asked for. *)
Theorem filter_golden_target_zero :
  ∃ st' golden gs,
    filter_golden 1%positive 0 (Example.store [Example.average; Example.battery])
    = (Ok golden, st') ∧
    holds_list (heap st') golden gs [Example.average] ∧
    ¬ (Z.of_nat (length gs) ≤ 0)%Z.
Proof.
  eexists _, _, _. split; [vm_compute; reflexivity|].
  split; [split; vm_compute; reflexivity|]. simpl. lia.
Qed.

Lemma filter_golden_unique_questions_witness :
  ∃ st' golden gs grs,
    filter_golden 1%positive 50 (Example.store Example.candidates)
    = (Ok golden, st') ∧
    holds_list (heap st') golden gs grs ∧
    NoDup ((λ g, Text.lower (Text.strip (question g))) <$> grs).
Proof.
  apply (filter_golden_unique_questions _ _ (Example.addresses 5)
           Example.candidates).
  split; reflexivity.
Defined.

Lemma filter_golden_quality_witness :
  ∃ st' golden gs grs,
    filter_golden 1%positive 50 (Example.store Example.candidates)
    = (Ok golden, st') ∧
    holds_list (heap st') golden gs grs ∧
    Forall (λ g,
      15 ≤ length (Text.strip (question g)) ∧
      ¬ (Text.contains (lit "error") (Text.lower (sql g)) = true ∧
         Text.contains (lit "select") (Text.lower (sql g)) = false)) grs.
Proof.
  apply (filter_golden_quality _ _ (Example.addresses 5) Example.candidates).
  split; reflexivity.
Defined.

Lemma filter_golden_newest_first_witness :
  ∃ st' golden gs grs,
    filter_golden 1%positive 50 (Example.store Example.candidates)
    = (Ok golden, st') ∧
    holds_list (heap st') golden gs grs ∧
    StronglySorted (λ a b, (timestamp b ≤ timestamp a)%Z) grs ∧
    ∀ t, filter (λ p, timestamp p.2 = t) (zip gs grs)
         `sublist_of` filter (λ p, timestamp p.2 = t)
                        (zip (Example.addresses 5) Example.candidates).
Proof.
  apply (filter_golden_newest_first _ _ (Example.addresses 5)
           Example.candidates).
  split; reflexivity.
Defined.

(** The sample of the specification: timestamps 10, 30, 20, all passing,
    come out as 30, 20, 10. *)
Example filter_golden_sample_order :
  let rs := [Example.record (lit "Which devices reported today?") (lit "SELECT 1") 10;
             Example.record (lit "Show average temperature by site") (lit "SELECT 2") 30;
             Example.record (lit "Show battery trend for last week") (lit "SELECT 3") 20] in
  ∃ st' golden gs grs,
    filter_golden 1%positive TARGET_COUNT (Example.store rs) = (Ok golden, st') ∧
    holds_list (heap st') golden gs grs ∧
    timestamp <$> grs = [30; 20; 10]%Z.
Proof.
  eexists _, _, _, _. split; [vm_compute; reflexivity|].
  split; [split; vm_compute; reflexivity|]. reflexivity.
Qed.

Lemma filter_golden_seen_before_quality_witness :
  passes Example.older = true ∧
  ∃ st' golden gs grs,
    filter_golden 1%positive 50 (Example.store Example.candidates)
    = (Ok golden, st') ∧
    holds_list (heap st') golden gs grs ∧
    (Example.newest ∉ grs) ∧
    (∀ r', r' ∈ Example.candidates →
           normalized r' = normalized Example.newest →
           (timestamp r' < timestamp Example.newest)%Z →
           r' ∉ grs).
Proof.
  split; [reflexivity|].
  apply (filter_golden_seen_before_quality _ _ (Example.addresses 5)
           Example.candidates).
  - split; reflexivity.
  - unfold Example.candidates. apply elem_of_cons. right. apply elem_of_cons.
    by left.
  - right. reflexivity.
Defined.

Lemma filter_golden_sorts_in_place_witness :
  ∃ st' golden gs grs qs' rs',
    filter_golden 1%positive 50 (Example.store Example.candidates)
    = (Ok golden, st') ∧
    holds_list (heap st') golden gs grs ∧
    holds_list (heap st') 1%positive qs' rs' ∧
    zip qs' rs' ≡ₚ zip (Example.addresses 5) Example.candidates ∧
    StronglySorted (λ a b, (timestamp b ≤ timestamp a)%Z) rs' ∧
    (qs' = Example.addresses 5
     ↔ StronglySorted (λ a b, (timestamp b ≤ timestamp a)%Z)
         Example.candidates) ∧
    (∀ q r, heap (Example.store Example.candidates) !! q = Some (Dict r) →
            heap st' !! q = Some (Dict r)) ∧
    (∀ q, q ∈ gs → q ∈ qs') ∧
    golden ≠ 1%positive ∧
    heap (Example.store Example.candidates) !! golden = None.
Proof.
  apply (filter_golden_sorts_in_place _ _ (Example.addresses 5)
           Example.candidates).
  split; reflexivity.
Defined.

Lemma scan_chat_history_qualifying_witness :
  ∃ st' queries qs rs,
    scan_chat_history 5 Example.world (lit "songbird-chat-history") initial
    = (Ok queries, st') ∧
    holds_list (heap st') queries qs rs ∧
    rs = new_record <$> filter (λ i, qualifies i = true)
                          (Example.first_page ++ Example.second_page) ∧
    ∀ item, item ∈ Example.first_page ++ Example.second_page →
      (qualifies item = true
       ↔ present (item_sql item) ∧ present (item_question item) ∧
         present (item_insights item)) ∧
      (new_record item ∈ rs ↔ qualifies item = true).
Proof.
  apply (scan_chat_history_qualifying 2 5 Example.world).
  - reflexivity.
  - lia.
Defined.

Lemma upload_verified_by_lookup_witness :
  ∃ status st m ms before,
    run 5 Example.world = (status, st) ∧
    requests st
    = [CreateDataset (payload (golden_records Example.fetched_records TARGET_COUNT));
       HttpPost (PHOENIX_URL Example.world ++ lit "/graphql") GRAPHQL_QUERY] ∧
    status = Some 0%Z ∧
    filter (λ d, name (node d) = DATASET_NAME)
      [ {| node := {| name := lit "smoke-test"; exampleCount := 3 |} |};
        {| node := {| name := DATASET_NAME; exampleCount := 42 |} |} ]
    = m :: ms ∧
    stdout st
    = before ++ [Text.nl ++ lit "Dataset created successfully! ("
                   ++ Text.str (exampleCount (node m)) ++ lit " examples)";
                 lit "View in Phoenix UI: " ++ PHOENIX_URL Example.world;
                 lit "Navigate to: Datasets > " ++ DATASET_NAME].
Proof.
  assert (fetched 5 Example.world = Ok Example.fetched_records) as Hf
    by (vm_compute; reflexivity).
  assert (golden_records Example.fetched_records TARGET_COUNT ≠ []) as Hg
    by (vm_compute; discriminate).
  destruct (upload_verified_by_lookup 5 Example.world Example.fetched_records
              (lit "'NoneType' object is not subscriptable") eq_refl Hf Hg eq_refl)
    as (status & st & Hrun & Hreq & Hfound).
  destruct (Hfound (Example.body 42)
              [ {| node := {| name := lit "smoke-test"; exampleCount := 3 |} |};
                {| node := {| name := DATASET_NAME; exampleCount := 42 |} |} ]
              {| node := {| name := DATASET_NAME; exampleCount := 42 |} |})
    as (m & ms & before & Hstatus & Hm & Hout).
  - reflexivity.
  - reflexivity.
  - apply elem_of_cons. right. apply elem_of_cons. by left.
  - reflexivity.
  - exists status, st, m, ms, before.
    exact (conj Hrun (conj Hreq (conj Hstatus (conj Hm Hout)))).
Defined.

(** The scenario of the specification: the service reports 42 examples,
    the filter kept 2, and the success line names 42. *)
Example verified_upload_names_service_count :
  (run 5 Example.world).1 = Some 0%Z ∧
  length (golden_records Example.fetched_records TARGET_COUNT) = 2 ∧
  stdout (run 5 Example.world).2 !! 12
  = Some (Text.nl ++ lit "Dataset created successfully! (42 examples)").
Proof. repeat split; vm_compute; reflexivity. Qed.

Lemma exit_status_cases_witness :
  ∃ code st,
    run 5 Example.world = (Some code, st) ∧
    (code = 0 ∨ code = 1)%Z ∧
    (code = 1%Z ↔
       is_Some (import_error Example.world) ∨
       (∃ what, fetched 5 Example.world = Raise (Exception what)) ∨
       fetched 5 Example.world = Ok [] ∨
       (∃ rs, fetched 5 Example.world = Ok rs ∧
              golden_records rs TARGET_COUNT = []) ∨
       (∃ rs e,
          fetched 5 Example.world = Ok rs ∧
          create_dataset Example.world (payload (golden_records rs TARGET_COUNT))
          = Raises e ∧
          ((∃ e', verification Example.world = Raises e') ∨
           (∃ es, verification Example.world = Returns es ∧
                  filter (λ d, name (node d) = DATASET_NAME) es = [])))).
Proof.
  apply (exit_status_cases 5 Example.world).
  vm_compute. discriminate.
Defined.

(** C2 as it is written fails when an import fails: the process exits
    with status 1 (line 23) although the store has qualifying records,
    two of them pass the filter and the upload would not raise. *)
Lemma exit_status_one_on_import_error :
  (run 5 Example.missing_dependency).1 = Some 1%Z ∧
  ¬ (fetched 5 Example.missing_dependency = Ok [] ∨
     (∃ rs, fetched 5 Example.missing_dependency = Ok rs ∧
            golden_records rs TARGET_COUNT = []) ∨
     (∃ rs e es,
        fetched 5 Example.missing_dependency = Ok rs ∧
        create_dataset Example.missing_dependency
          (payload (golden_records rs TARGET_COUNT)) = Raises e ∧
        verification Example.missing_dependency = Returns es ∧
        filter (λ d, name (node d) = DATASET_NAME) es = [])).
Proof.
  split; [vm_compute; reflexivity|].
  intros [H|[(rs & H & Hg)|(rs & e & es & _ & H & _)]].
  - vm_compute in H. discriminate.
  - vm_compute in H. injection H as <-. vm_compute in Hg. discriminate.
  - simpl in H. discriminate.
Qed.

Lemma upload_rows_aligned_witness :
  ∃ status st args rest,
    run 5 Example.world = (status, st) ∧
    requests st = CreateDataset args :: rest ∧
    arg_name args = DATASET_NAME ∧
    length (arg_inputs args)
    = length (golden_records Example.fetched_records TARGET_COUNT) ∧
    length (arg_outputs args)
    = length (golden_records Example.fetched_records TARGET_COUNT) ∧
    length (arg_metadata args)
    = length (golden_records Example.fetched_records TARGET_COUNT) ∧
    ∀ i g, golden_records Example.fetched_records TARGET_COUNT !! i = Some g →
      arg_inputs args !! i = Some {[ "question" := question g ]} ∧
      arg_outputs args !! i
      = Some (<[ "sql" := sql g ]> {[ "insights" := insights g ]}) ∧
      arg_metadata args !! i
      = Some (<[ "source" := lit "dynamodb_chat_history" ]>
              (<[ "user_email" := user_email g ]>
              (<[ "session_id" := session_id g ]>
              {[ "timestamp" := Text.str (timestamp g) ]}))).
Proof.
  apply (upload_rows_aligned 5 Example.world Example.fetched_records).
  - reflexivity.
  - vm_compute. reflexivity.
  - vm_compute. discriminate.
Defined.

Lemma scan_chat_history_fields_not_empty_witness :
  ∃ st' queries qs rs,
    scan_chat_history 5 Example.world (lit "songbird-chat-history") initial
    = (Ok queries, st') ∧
    holds_list (heap st') queries qs rs ∧
    length rs ≤ length (Example.first_page ++ Example.second_page) ∧
    Forall (λ r, question r ≠ lit "" ∧ sql r ≠ lit "" ∧ insights r ≠ lit "") rs.
Proof.
  apply (scan_chat_history_fields_not_empty 5 Example.world).
  reflexivity.
Defined.

Lemma scan_chat_history_allocates_witness :
  ∃ st' queries qs rs,
    scan_chat_history 5 Example.world (lit "songbird-chat-history")
      (Example.store Example.candidates) = (Ok queries, st') ∧
    holds_list (heap st') queries qs rs ∧
    heap (Example.store Example.candidates) !! queries = None ∧
    (∀ q, q ∈ qs → heap (Example.store Example.candidates) !! q = None) ∧
    NoDup (queries :: qs) ∧
    (∀ l o, heap (Example.store Example.candidates) !! l = Some o →
            heap st' !! l = Some o) ∧
    requests st' = requests (Example.store Example.candidates).
Proof.
  apply (scan_chat_history_allocates 5 Example.world _ _
           (Example.first_page ++ Example.second_page)).
  reflexivity.
Defined.

Lemma scan_chat_history_stops_without_cursor_witness :
  ∃ st' queries qs rs,
    scan_chat_history 3
      (Example.world_with Example.one_page (Returns tt)
         (Returns Example.other_body))
      (lit "songbird-chat-history") initial = (Ok queries, st') ∧
    holds_list (heap st') queries qs rs ∧
    rs = new_record <$> filter (λ i, qualifies i = true)
                          (default [] (Some Example.first_page)).
Proof.
  apply (scan_chat_history_stops_without_cursor 3
           (Example.world_with Example.one_page (Returns tt)
              (Returns Example.other_body))
           (lit "songbird-chat-history") initial
           {| Items := Some Example.first_page; LastEvaluatedKey := Some [] |}).
  - reflexivity.
  - right. reflexivity.
  - lia.
Defined.

Lemma scan_chat_history_needs_last_page_witness :
  (∃ st', scan_chat_history 7
            (Example.world_with Example.endless (Returns tt)
               (Returns Example.other_body))
            (lit "songbird-chat-history") initial = (OutOfFuel, st')) ∧
  (run 7 (Example.world_with Example.endless (Returns tt)
            (Returns Example.other_body))).1 = None.
Proof.
  apply (scan_chat_history_needs_last_page
           (Example.world_with Example.endless (Returns tt)
              (Returns Example.other_body))).
  - reflexivity.
  - intros c. eexists. split; [reflexivity|].
    exists (lit "id", lit "a1"), []. reflexivity.
Defined.

Lemma fetch_failure_ends_run_witness :
  ∃ st,
    script 5 (Example.world_with Example.unreachable (Returns tt)
                (Returns Example.other_body)) initial
    = (Raise (Exception (lit "Could not connect to the endpoint URL")), st) ∧
    (run 5 (Example.world_with Example.unreachable (Returns tt)
              (Returns Example.other_body))).1 = Some 1%Z ∧
    stdout st
    = [lit "Scanning DynamoDB table '"
       ++ CHAT_HISTORY_TABLE (Example.world_with Example.unreachable
                                 (Returns tt) (Returns Example.other_body))
       ++ lit "'..."] ∧
    requests st = [].
Proof.
  apply (fetch_failure_ends_run 5
           (Example.world_with Example.unreachable (Returns tt)
              (Returns Example.other_body))).
  - reflexivity.
  - reflexivity.
Defined.

Lemma filter_golden_idempotent_witness :
  ∃ st' golden gs grs st'' again,
    filter_golden 1%positive 50 (Example.store Example.candidates)
    = (Ok golden, st') ∧
    holds_list (heap st') golden gs grs ∧
    filter_golden golden 50 st' = (Ok again, st'') ∧
    holds_list (heap st'') again gs grs ∧
    holds_list (heap st'') golden gs grs.
Proof.
  apply (filter_golden_idempotent _ _ (Example.addresses 5) Example.candidates).
  split; reflexivity.
Defined.

Lemma filter_golden_prefix_witness :
  ∃ st1 golden1 gs1 grs1 st2 golden2 gs2 grs2,
    filter_golden 1%positive 1 (Example.store Example.candidates)
    = (Ok golden1, st1) ∧
    holds_list (heap st1) golden1 gs1 grs1 ∧
    filter_golden 1%positive 50 (Example.store Example.candidates)
    = (Ok golden2, st2) ∧
    holds_list (heap st2) golden2 gs2 grs2 ∧
    gs1 = take (Z.to_nat 1) gs2 ∧
    grs1 = take (Z.to_nat 1) grs2.
Proof.
  apply (filter_golden_prefix _ _ (Example.addresses 5) Example.candidates).
  - split; reflexivity.
  - lia.
  - lia.
Defined.

Lemma filter_golden_low_target_witness :
  ∃ st' golden gs grs,
    filter_golden 1%positive (-3) (Example.store Example.candidates)
    = (Ok golden, st') ∧
    filter_golden 1%positive 1 (Example.store Example.candidates)
    = (Ok golden, st') ∧
    holds_list (heap st') golden gs grs ∧
    grs = take 1 (passing Example.candidates).
Proof.
  apply (filter_golden_low_target _ _ (Example.addresses 5) Example.candidates).
  - split; reflexivity.
  - lia.
Defined.

Lemma filter_golden_most_recent_witness :
  ∃ st' golden gs grs qs' rs',
    filter_golden 1%positive 2 (Example.store Example.distinct)
    = (Ok golden, st') ∧
    holds_list (heap st') golden gs grs ∧
    holds_list (heap st') 1%positive qs' rs' ∧
    zip qs' rs' ≡ₚ zip (Example.addresses 3) Example.distinct ∧
    StronglySorted (λ a b, (timestamp b ≤ timestamp a)%Z) rs' ∧
    gs = take (Z.to_nat 2) qs' ∧
    grs = take (Z.to_nat 2) rs' ∧
    length grs = Z.to_nat 2 `min` length Example.distinct.
Proof.
  apply (filter_golden_most_recent _ _ (Example.addresses 3) Example.distinct).
  - split; reflexivity.
  - lia.
  - repeat constructor.
  - apply (bool_decide_unpack _). vm_compute. exact I.
Defined.

Lemma filter_golden_frame_witness :
  ∃ st' golden gs grs,
    filter_golden 1%positive 50 (Example.store Example.candidates)
    = (Ok golden, st') ∧
    holds_list (heap st') golden gs grs ∧
    stdout st' = stdout (Example.store Example.candidates) ∧
    requests st' = requests (Example.store Example.candidates) ∧
    heap (Example.store Example.candidates) !! golden = None ∧
    golden ≠ 1%positive ∧
    dom (heap st') = {[golden]} ∪ dom (heap (Example.store Example.candidates)) ∧
    ∀ l o, l ≠ 1%positive →
           heap (Example.store Example.candidates) !! l = Some o →
           heap st' !! l = Some o.
Proof.
  apply (filter_golden_frame _ _ (Example.addresses 5) Example.candidates).
  split; reflexivity.
Defined.

Lemma no_queries_ends_run_witness :
  ∃ st,
    run 5 (Example.world_with Example.no_items (Returns tt)
             (Returns Example.other_body)) = (Some 1%Z, st) ∧
    requests st = [] ∧
    stdout st
    = [ lit "Scanning DynamoDB table '"
        ++ CHAT_HISTORY_TABLE (Example.world_with Example.no_items
                                  (Returns tt) (Returns Example.other_body))
        ++ lit "'...";
        lit "Found 0 successful queries with SQL and insights";
        lit "No queries found. Use the analytics chat in the dashboard first." ].
Proof.
  apply (no_queries_ends_run 5
           (Example.world_with Example.no_items (Returns tt)
              (Returns Example.other_body))).
  - reflexivity.
  - reflexivity.
Defined.

Lemma no_examples_ends_run_witness :
  ∃ st,
    run 5 (Example.world_with Example.short_only (Returns tt)
             (Returns Example.other_body)) = (Some 1%Z, st) ∧
    requests st = [] ∧
    stdout st
    = [ lit "Scanning DynamoDB table '"
        ++ CHAT_HISTORY_TABLE (Example.world_with Example.short_only
                                  (Returns tt) (Returns Example.other_body))
        ++ lit "'...";
        lit "Found " ++ Text.str (Z.of_nat (length
           [new_record (Example.item (Some (lit "show me")) (Some (lit "SELECT 2")) 20)]))
          ++ lit " successful queries with SQL and insights";
        lit "Filtered to 0 golden examples";
        lit "No examples passed quality filters." ].
Proof.
  apply (no_examples_ends_run 5
           (Example.world_with Example.short_only (Returns tt)
              (Returns Example.other_body))).
  - reflexivity.
  - reflexivity.
  - discriminate.
  - vm_compute. reflexivity.
Defined.

Lemma clean_upload_console_witness :
  ∃ st,
    run 5 (Example.world_with Example.table (Returns tt)
             (Returns Example.other_body)) = (Some 0%Z, st) ∧
    requests st
    = [CreateDataset (payload (golden_records Example.fetched_records TARGET_COUNT))] ∧
    stdout st
    = console_to_upload
        (Example.world_with Example.table (Returns tt)
           (Returns Example.other_body))
        Example.fetched_records
        (golden_records Example.fetched_records TARGET_COUNT)
      ++ [ Text.nl ++ lit "Dataset created successfully!";
           lit "View in Phoenix UI: "
           ++ PHOENIX_URL (Example.world_with Example.table (Returns tt)
                              (Returns Example.other_body));
           lit "Navigate to: Datasets > " ++ DATASET_NAME ].
Proof.
  apply (clean_upload_console 5
           (Example.world_with Example.table (Returns tt)
              (Returns Example.other_body)) Example.fetched_records).
  - reflexivity.
  - vm_compute. reflexivity.
  - vm_compute. discriminate.
  - reflexivity.
Defined.

Lemma unconfirmed_upload_console_witness :
  ∃ st,
    run 5 (Example.world_with Example.table (Raises (lit "HTTP 500"))
             (Returns Example.other_body)) = (Some 1%Z, st) ∧
    requests st
    = [CreateDataset (payload (golden_records Example.fetched_records TARGET_COUNT));
       HttpPost (PHOENIX_URL (Example.world_with Example.table
                                (Raises (lit "HTTP 500")) (Returns Example.other_body))
                 ++ lit "/graphql") GRAPHQL_QUERY] ∧
    stdout st
    = console_to_upload
        (Example.world_with Example.table (Raises (lit "HTTP 500"))
           (Returns Example.other_body))
        Example.fetched_records
        (golden_records Example.fetched_records TARGET_COUNT)
      ++ [ Text.nl ++ lit "Warning: Upload may have failed - " ++ lit "HTTP 500" ].
Proof.
  apply (unconfirmed_upload_console 5
           (Example.world_with Example.table (Raises (lit "HTTP 500"))
              (Returns Example.other_body))
           Example.fetched_records (lit "HTTP 500") Example.other_body
           [ {| node := {| name := lit "smoke-test"; exampleCount := 3 |} |} ]).
  - reflexivity.
  - vm_compute. reflexivity.
  - vm_compute. discriminate.
  - reflexivity.
  - reflexivity.
  - reflexivity.
  - intros d [->|Hd%elem_of_nil]%elem_of_cons; [discriminate|done].
Defined.

Lemma failed_lookup_console_witness :
  ∃ st,
    script 5 (Example.world_with Example.table (Raises (lit "HTTP 500"))
                (Returns Example.null_body)) initial
    = (Raise (Exception (lit "'NoneType' object has no attribute 'get'")), st) ∧
    (run 5 (Example.world_with Example.table (Raises (lit "HTTP 500"))
              (Returns Example.null_body))).1 = Some 1%Z ∧
    requests st
    = [CreateDataset (payload (golden_records Example.fetched_records TARGET_COUNT));
       HttpPost (PHOENIX_URL (Example.world_with Example.table
                                (Raises (lit "HTTP 500"))
                                (Returns Example.null_body))
                 ++ lit "/graphql") GRAPHQL_QUERY] ∧
    stdout st
    = console_to_upload
        (Example.world_with Example.table (Raises (lit "HTTP 500"))
           (Returns Example.null_body))
        Example.fetched_records
        (golden_records Example.fetched_records TARGET_COUNT).
Proof.
  apply (failed_lookup_console 5
           (Example.world_with Example.table (Raises (lit "HTTP 500"))
              (Returns Example.null_body))
           Example.fetched_records (lit "HTTP 500")
           (lit "'NoneType' object has no attribute 'get'")).
  - reflexivity.
  - vm_compute. reflexivity.
  - vm_compute. discriminate.
  - reflexivity.
  - reflexivity.
Defined.

(** An answer whose data is null: the reading of its next level raises,
    no warning is printed, and the process exits with status 1. *)
Example null_answer_ends_run :
  let w := Example.world_with Example.table (Raises (lit "HTTP 500"))
             (Returns Example.null_body) in
  (run 5 w).1 = Some 1%Z ∧
  (script 5 w initial).1
  = Raise (Exception (lit "'NoneType' object has no attribute 'get'")) ∧
  last (stdout (run 5 w).2)
  = Some (lit "Creating dataset 'analytics-golden-queries' with 2 examples...").
Proof. repeat split; vm_compute; reflexivity. Qed.

Lemma requests_of_a_run_witness :
  ∃ status st,
    run 5 Example.world = (status, st) ∧
    (requests st = [] ∨
     ∃ args,
       (requests st = [CreateDataset args] ∨
        requests st = [CreateDataset args;
                       HttpPost (PHOENIX_URL Example.world ++ lit "/graphql")
                         GRAPHQL_QUERY]) ∧
       arg_name args = DATASET_NAME ∧
       1 ≤ length (arg_inputs args) ≤ 50 ∧
       length (arg_outputs args) = length (arg_inputs args) ∧
       length (arg_metadata args) = length (arg_inputs args)).
Proof.
  apply (requests_of_a_run 5 Example.world).
  vm_compute. discriminate.
Defined.
